(** * A shallow embedding of [server.py]: the upload and gallery service

    The development follows the Python module function by function.  The
    process-wide state the module works on (the directory tree below the
    working directory, the clock and the resolver) is an explicit [world]
    that every operation receives and returns.  A Python exception is an
    [Error] outcome of the operation that raises it, and each [try]/[except]
    of the source is a [match] on that outcome.

    Code outside the repository (the JSON codec, the imaging library,
    werkzeug's [secure_filename], float formatting, the Unicode tables behind
    [str.isalnum]) is gathered in the [Platform] interface. *)

From Stdlib Require Import Ascii String.
From stdpp Require Import base option list gmap strings pretty sorting.


(** ** Python [str] helpers *)

Definition chars (s : string) : list ascii := list_ascii_of_string s.
Definition str (l : list ascii) : string := string_of_list_ascii l.

Definition slash : ascii := "/"%char.
Definition dot : ascii := "."%char.

(** [c in s] for a one-character [c]. *)
Definition contains (c : ascii) (s : string) : bool :=
  bool_decide (c ∈ chars s).

(** [s.startswith(c)]. *)
Definition starts_with (c : ascii) (s : string) : bool :=
  match s with
  | String a _ => bool_decide (a = c)
  | EmptyString => false
  end.

(** [s.endswith(c)]. *)
Definition ends_with (c : ascii) (s : string) : bool :=
  match last (chars s) with
  | Some a => bool_decide (a = c)
  | None => false
  end.

(** [s.startswith(pre)]. *)
Fixpoint has_prefix (pre s : string) : bool :=
  match pre, s with
  | EmptyString, _ => true
  | String a pre', String b s' => bool_decide (a = b) && has_prefix pre' s'
  | String _ _, EmptyString => false
  end.

(** [os.path.join(a, b)] of [posixpath]: an absolute [b] discards [a], and a
    separator is put between the two unless [a] is empty or ends with one. *)
Definition path_join (a b : string) : string :=
  if starts_with slash b then b
  else if bool_decide (a = "") || ends_with slash a then a +:+ b
  else a +:+ "/" +:+ b.

(** [str.strip()]: the white space of the 8-bit range. *)
Definition is_space (c : ascii) : bool :=
  match c with
  | "009" | "010" | "011" | "012" | "013" | " "
  | "028" | "029" | "030" | "031" => true
  | _ => false
  end%char.

Fixpoint lstrip (l : list ascii) : list ascii :=
  match l with
  | c :: l' => if is_space c then lstrip l' else l
  | [] => []
  end.

Definition strip_chars (l : list ascii) : list ascii :=
  reverse (lstrip (reverse (lstrip l))).

Definition strip (s : string) : string := str (strip_chars (chars s)).

(** [str.lower()] on the ASCII letters. *)
Definition lower_char (c : ascii) : ascii :=
  let n := nat_of_ascii c in
  if bool_decide (65 ≤ n ≤ 90) then ascii_of_nat (n + 32) else c.

Definition lower (s : string) : string := str (lower_char <$> chars s).

(** The elements of [l] before its first [c], and those after it. *)
Fixpoint take_until (c : ascii) (l : list ascii) : list ascii :=
  match l with
  | a :: l' => if bool_decide (a = c) then [] else a :: take_until c l'
  | [] => []
  end.

Fixpoint drop_through (c : ascii) (l : list ascii) : list ascii :=
  match l with
  | a :: l' => if bool_decide (a = c) then l' else drop_through c l'
  | [] => []
  end.

(** The part of [l] after its last [c], and the part before it:
    [s.rsplit(c, 1)] when [c] occurs in [s]. *)
Definition after_last (c : ascii) (l : list ascii) : list ascii :=
  reverse (take_until c (reverse l)).

Definition before_last (c : ascii) (l : list ascii) : list ascii :=
  reverse (drop_through c (reverse l)).

(** [os.path.splitext] of [genericpath._splitext]: the extension starts at
    the last dot of the last path component, provided some character of that
    component before the dot is not a dot itself. *)
Definition splitext (p : string) : string * string :=
  let l := chars p in
  let comp := after_last slash l in
  if bool_decide (dot ∈ comp) then
    let stem := before_last dot comp in
    if forallb (λ a, bool_decide (a = dot)) stem then (p, "")
    else (str (before_last dot l), str (dot :: after_last dot l))
  else (p, "").

(** ** Module constants *)

Definition UPLOAD_BASE : string := "uploads".
Definition THUMBNAIL_DIR : string := "thumbnails".
Definition METADATA_FILE : string := "photo_metadata.json".

Definition IMAGE_EXTENSIONS : list string :=
  ["jpg"; "jpeg"; "png"; "gif"; "bmp"; "webp"; "tiff"; "svg"].

(** [is_image(filename)] *)
Definition is_image (filename : string) : bool :=
  if bool_decide (filename = "") || negb (contains dot filename) then false
  else
    let ext := lower (str (after_last dot (chars filename))) in
    bool_decide (ext ∈ IMAGE_EXTENSIONS).

(** ** Data model *)

(** One value of the metadata mapping: a JSON object whose keys may each be
    missing.  [thumbnail] distinguishes a missing key from [null]. *)
Record FileRecord := mkRecord {
  folder : option string;
  filename : option string;
  description : option string;
  upload_date : option string;
  filepath : option string;
  thumbnail : option (option string);
  uploaded_by : option string;
  system_ip : option string;
  file_size : option string;
  is_img : option bool
}.

Global Instance FileRecord_eq_dec : EqDecision FileRecord.
Proof. solve_decision. Defined.

(** A Python [dict] with string keys: keys are unique and keep the order in
    which they were first inserted. *)
Abbreviation dict V := (list (string * V)).
Abbreviation mapping := (dict FileRecord).

Fixpoint dict_get {V} (k : string) (d : dict V) : option V :=
  match d with
  | [] => None
  | (k', v) :: d' => if bool_decide (k' = k) then Some v else dict_get k d'
  end.

Definition dict_has {V} (k : string) (d : dict V) : bool :=
  bool_decide (k ∈ d.*1).

(** [d[k] = v] *)
Fixpoint dict_set {V} (k : string) (v : V) (d : dict V) : dict V :=
  match d with
  | [] => [(k, v)]
  | (k', v') :: d' =>
      if bool_decide (k' = k) then (k, v) :: d' else (k', v') :: dict_set k v d'
  end.

(** ** Code outside the repository *)

(** What [json.load] does with the text of the metadata file. *)
Inductive document :=
  | DecodeError                (* raises [json.JSONDecodeError] *)
  | OtherError                 (* raises anything else, e.g. on bytes that are not UTF-8 *)
  | NotObject                  (* a JSON value that is not an object *)
  | Object (m : mapping).

Class Platform := {
  (** [json.load(f)] on a file with the given content *)
  json_load : string → document;
  (** [json.dump(data, f, indent=2, ensure_ascii=False)]: the text written,
      or [None] when it raises *)
  json_dump : mapping → option string;
  (** the imaging pipeline of [create_thumbnail], from the bytes of the
      source to the bytes of the JPEG, or [None] when it raises *)
  render_thumbnail : string → option string;
  (** [str(x)] of a float time stamp *)
  float_str : Z → string;
  (** [datetime.fromtimestamp(x).strftime('%Y-%m-%d %H:%M:%S')] *)
  strftime : Z → string;
  (** [f"{a / b:.2f}"] *)
  format_2f : N → N → string;
  (** [c.isalnum()] *)
  isalnum : ascii → bool;
  (** [werkzeug.utils.secure_filename] *)
  secure_filename : string → string
}.

(** ** The world: directory tree, clock and resolver *)

Inductive node :=
  | File (data : string) (mtime : Z)
  | Dir.

Global Instance node_eq_dec : EqDecision node.
Proof. solve_decision. Defined.

Record world := mkWorld {
  fs : gmap string node;        (* path, relative to the working directory *)
  clock : Z;                    (* the current time *)
  resolver : option string      (* [socket.gethostbyname("Aman")], [None] when it raises *)
}.

Definition set_fs (w : world) (m : gmap string node) : world :=
  mkWorld m (clock w) (resolver w).

(** The outcome of a call that may raise. *)
Inductive outcome (A : Type) :=
  | Ok (a : A)
  | Error.
Global Arguments Ok {_} _.
Global Arguments Error {_}.

Definition path_exists (p : string) (w : world) : bool :=
  bool_decide (is_Some (fs w !! p)).

Definition isdir (p : string) (w : world) : bool :=
  bool_decide (fs w !! p = Some Dir).

Definition isfile (p : string) (w : world) : bool :=
  match fs w !! p with Some (File _ _) => true | _ => false end.

(** [os.path.dirname(p)] for a path without a trailing separator. *)
Definition dirname (p : string) : string :=
  if contains slash p then str (before_last slash (chars p)) else "".

(** The directory a new entry [p] would be created in exists. *)
Definition parent_ok (p : string) (w : world) : bool :=
  bool_decide (dirname p = "") || isdir (dirname p) w.

(** [Some n] when [p] names the entry [n] of directory [d]. *)
Definition child_of (d p : string) : option string :=
  let lp := chars p in
  let ld := chars d in
  if bool_decide (take (length ld) lp = ld) then
    let r := drop (length ld) lp in
    let n := match r with a :: r' => if bool_decide (a = slash) then r' else r | [] => [] end in
    if bool_decide (n ≠ [] ∧ (slash ∉ n) ∧ path_join d (str n) = p)
    then Some (str n) else None
  else None.

Definition children (d : string) (m : gmap string node) : gset string :=
  set_omap (child_of d) (dom m).

(** [os.listdir(d)]; raises unless [d] is a directory. *)
Definition listdir (d : string) (w : world) : outcome (list string) :=
  if isdir d w then Ok (elements (children d (fs w))) else Error.

(** [os.stat(p).st_mtime] *)
Definition stat_mtime (p : string) (w : world) : outcome Z :=
  match fs w !! p with
  | Some (File _ t) => Ok t
  | Some Dir => Ok 0%Z
  | None => Error
  end.

(** [os.path.getsize(p)] *)
Definition getsize (p : string) (w : world) : outcome N :=
  match fs w !! p with
  | Some (File data _) => Ok (N.of_nat (String.length data))
  | Some Dir => Ok 4096%N
  | None => Error
  end.

(** Reading a regular file. *)
Definition read_file (p : string) (w : world) : outcome string :=
  match fs w !! p with
  | Some (File data _) => Ok data
  | _ => Error
  end.

(** Creating or overwriting a regular file; raises on a directory and when
    the parent directory is missing. *)
Definition write_file (p data : string) (w : world) : outcome world :=
  if isdir p w || negb (parent_ok p w) then Error
  else Ok (set_fs w (<[p := File data (clock w)]> (fs w))).

(** [os.rename] and [os.replace] of a regular file: the source must exist,
    the target must not be a directory.  The module renames nothing but
    regular files it has just read or written. *)
Definition os_rename (src dst : string) (w : world) : outcome world :=
  match fs w !! src with
  | Some (File data t) =>
      if isdir dst w || negb (parent_ok dst w) then Error
      else Ok (set_fs w (<[dst := File data t]> (delete src (fs w))))
  | _ => Error
  end.

Definition os_replace := os_rename.

(** [os.remove]: raises on a missing path and on a directory. *)
Definition os_remove (p : string) (w : world) : outcome world :=
  if isfile p w then Ok (set_fs w (delete p (fs w))) else Error.

(** The prefixes of [p] that end before a separator, then [p] itself:
    the directories [os.makedirs(p)] goes through. *)
Fixpoint ancestors_go (seen rest : list ascii) : list string :=
  match rest with
  | [] => [str (reverse seen)]
  | a :: rest' =>
      (if bool_decide (a = slash) && bool_decide (seen ≠ [])
       then [str (reverse seen)] else [])
      ++ ancestors_go (a :: seen) rest'
  end.

Definition ancestors (p : string) : list string := ancestors_go [] (chars p).

(** [os.makedirs(p, exist_ok=True)]: raises when a regular file is in the
    way. *)
Definition makedirs (p : string) (w : world) : outcome world :=
  foldl (λ st d,
           match st with
           | Error => Error
           | Ok w' =>
               match fs w' !! d with
               | Some Dir => Ok w'
               | Some (File _ _) => Error
               | None => Ok (set_fs w' (<[d := Dir]> (fs w')))
               end
           end) (Ok w) (ancestors p).

(** ** The metadata store *)

Section Server.
Context `{Platform}.

Definition BACKUP_FILE : string := METADATA_FILE +:+ ".backup".
Definition TEMP_FILE : string := METADATA_FILE +:+ ".tmp".

(** The body of the [try] of [load_metadata]: [open] and [json.load]. *)
Definition read_document (w : world) : document :=
  match read_file METADATA_FILE w with
  | Ok text => json_load text
  | Error => OtherError
  end.

(** [load_metadata()] *)
Definition load_metadata (w : world) : outcome mapping * world :=
  if path_exists METADATA_FILE w then
    match read_document w with
    | Object data => (Ok data, w)
    | NotObject => (Ok [], w)
    | DecodeError =>
        (* except json.JSONDecodeError: back the file up, ignoring a failure *)
        match os_rename METADATA_FILE BACKUP_FILE w with
        | Ok w' => (Ok [], w')
        | Error => (Ok [], w)
        end
    | OtherError => (Ok [], w)
    end
  else (Ok [], w).

(** The body of the [try] of [save_metadata].  [open(temp_file, 'w')] creates
    the file before [json.dump] runs, so a failing [json.dump] leaves it
    behind. *)
Definition write_and_replace (data : mapping) (w : world) : outcome unit * world :=
  match write_file TEMP_FILE "" w with
  | Error => (Error, w)
  | Ok w1 =>
      match json_dump data with
      | None => (Error, w1)
      | Some text =>
          match write_file TEMP_FILE text w1 with
          | Error => (Error, w1)
          | Ok w2 =>
              (* os.replace when the target exists, os.rename otherwise *)
              match (if path_exists METADATA_FILE w2
                     then os_replace TEMP_FILE METADATA_FILE w2
                     else os_rename TEMP_FILE METADATA_FILE w2) with
              | Ok w3 => (Ok (), w3)
              | Error => (Error, w2)
              end
          end
      end
  end.

(** [save_metadata(data)] *)
Definition save_metadata (data : mapping) (w : world) : outcome bool * world :=
  match write_and_replace data w with
  | (Ok _, w') => (Ok true, w')
  | (Error, w') =>
      (* except Exception: clean up the temporary file, ignoring a failure *)
      if path_exists TEMP_FILE w' then
        match os_remove TEMP_FILE w' with
        | Ok w'' => (Ok false, w'')
        | Error => (Ok false, w')
        end
      else (Ok false, w')
  end.

(** ** Sizes and thumbnails *)

Fixpoint size_units (units : list string) (num den : N) : string :=
  match units with
  | unit :: units' =>
      if (num <? 1024 * den)%N then format_2f num den +:+ " " +:+ unit
      else size_units units' num (den * 1024)%N
  | [] => format_2f num den +:+ " PB"
  end.

(** [get_file_size(filepath)] *)
Definition get_file_size (p : string) (w : world) : string :=
  match getsize p w with
  | Ok size => size_units ["B"; "KB"; "MB"; "GB"; "TB"] size 1
  | Error => "Unknown"
  end.

(** [create_thumbnail(image_path, thumbnail_path)] *)
Definition create_thumbnail (image_path thumbnail_path : string) (w : world)
    : bool * world :=
  match read_file image_path w with
  | Ok bytes =>
      match render_thumbnail bytes with
      | Some jpeg =>
          match write_file thumbnail_path jpeg w with
          | Ok w' => (true, w')
          | Error => (false, w)
          end
      | None => (false, w)
      end
  | Error => (false, w)
  end.

(** ** Reconciliation *)

(** The first loop of [scan_all_uploads]: keep the records whose file is
    still there. *)
Definition keep_existing (w : world) (metadata : mapping) : mapping :=
  foldl (λ all_files '(file_id, data),
           match filepath data with
           | Some p => if path_exists p w then dict_set file_id data all_files
                       else all_files
           | None => all_files
           end) [] metadata.

Definition file_id_of (folder_name filename : string) (stamp : Z) : string :=
  folder_name +:+ "_" +:+ filename +:+ "_" +:+ float_str stamp.

Definition thumbnail_name (folder_name filename : string) : string :=
  folder_name +:+ "_" +:+ filename.

(** The body of the innermost loop, for one directory entry. *)
Definition scan_file (folder_name folder_path : string)
    (st : mapping * world) (filename : string) : mapping * world :=
  let '(all_files, w) := st in
  let filepath := path_join folder_path filename in
  if isfile filepath w then
    match stat_mtime filepath w with
    | Error => (all_files, w)          (* except Exception: continue *)
    | Ok st_mtime =>
        let file_id := file_id_of folder_name filename st_mtime in
        if dict_has file_id all_files then (all_files, w)
        else
          let is_img := is_image filename in
          let thumbnail_filename :=
            if is_img then Some (thumbnail_name folder_name filename) else None in
          let w' :=
            if is_img then
              let thumbnail_path :=
                path_join THUMBNAIL_DIR (thumbnail_name folder_name filename) in
              if path_exists thumbnail_path w then w
              else (create_thumbnail filepath thumbnail_path w).2
            else w in
          (dict_set file_id
             {| folder := Some folder_name;
                filename := Some filename;
                description := Some "Auto-detected file";
                upload_date := Some (strftime st_mtime);
                filepath := Some filepath;
                thumbnail := Some thumbnail_filename;
                uploaded_by := Some "Unknown";
                system_ip := Some "Unknown";
                file_size := Some (get_file_size filepath w');
                is_img := Some is_img |} all_files, w')
    end
  else (all_files, w).

(** The body of the outer loop, for one entry of the upload directory. *)
Definition scan_folder (st : outcome (mapping * world)) (folder_name : string)
    : outcome (mapping * world) :=
  match st with
  | Error => Error
  | Ok (all_files, w) =>
      let folder_path := path_join UPLOAD_BASE folder_name in
      if isdir folder_path w then
        match listdir folder_path w with
        | Ok names => Ok (foldl (scan_file folder_name folder_path) (all_files, w) names)
        | Error => Error
        end
      else Ok (all_files, w)
  end.

(** The second loop of [scan_all_uploads]. *)
Definition scan_new (all_files : mapping) (w : world) : outcome (mapping * world) :=
  if path_exists UPLOAD_BASE w then
    match listdir UPLOAD_BASE w with
    | Ok folders => foldl scan_folder (Ok (all_files, w)) folders
    | Error => Error
    end
  else Ok (all_files, w).

(** [scan_all_uploads()] *)
Definition scan_all_uploads (w : world) : outcome mapping * world :=
  match load_metadata w with
  | (Error, w1) => (Error, w1)
  | (Ok metadata, w1) =>
      match scan_new (keep_existing w1 metadata) w1 with
      | Error => (Error, w1)
      | Ok (all_files, w2) =>
          let '(_, w3) := save_metadata all_files w2 in
          (Ok all_files, w3)
      end
  end.

(** ** Sanitisation *)

Definition filename_char (c : ascii) : bool :=
  isalnum c || bool_decide (c ∈ ["_"; "-"; "."]%char).

Definition foldername_char (c : ascii) : bool :=
  isalnum c || bool_decide (c ∈ ["_"; "-"; " "]%char).

(** [sanitize_filename(filename)] *)
Definition sanitize_filename (name : string) : option string :=
  if bool_decide (name = "") then None
  else
    let name := secure_filename name in
    let name := str (filter (λ c, filename_char c) (chars name)) in
    if bool_decide (name = "") || negb (contains dot name) then None
    else Some name.

(** [sanitize_foldername(foldername)] *)
Definition sanitize_foldername (name : string) : option string :=
  if bool_decide (name = "") then None
  else
    let name := str (filter (λ c, foldername_char c) (chars name)) in
    let name := strip name in
    if bool_decide (name = "") || bool_decide (100 < String.length name) then None
    else Some name.

(** ** Requests and responses *)

(** The multipart form of [POST /upload]: the [file] part with its file name
    and bytes, and the two text fields. *)
Record request := mkRequest {
  req_file : option (string * string);
  req_foldername : option string;
  req_description : option string
}.

(** One element of the [files] list of the gallery. *)
Record FileView := mkView {
  v_id : string;
  v_folder : string;
  v_name : string;
  v_description : string;
  v_date : string;
  v_thumbnail : option string;
  v_uploaded_by : string;
  v_system_ip : string;
  v_file_size : string;
  v_is_image : bool
}.

Record Stats := mkStats {
  total_files : nat;
  total_folders : nat;
  total_systems : nat
}.

Inductive body :=
  | ErrorBody (msg : string)
  | UploadBody (b_folder b_filename b_path b_uploaded_by b_ip b_size : string)
  | GalleryBody (files : list FileView) (stats : Stats).

Definition response : Type := nat * body.

(** [get_system_info()] *)
Definition get_system_info (w : world) : string * string :=
  match resolver w with
  | Some ip => ("Aman", ip)
  | None => ("Unknown", "Unknown")
  end.

(** ** Upload *)

(** The name tried with counter [k]: [f"{name}_{counter}{ext}"]. *)
Definition numbered (base_filename : string) (counter : nat) : string :=
  let '(name, ext) := splitext base_filename in
  name +:+ "_" +:+ pretty counter +:+ ext.

(** The [while os.path.exists(filepath)] loop, entered with the current
    [filename] and [counter]; [None] when the fuel runs out. *)
Fixpoint free_name (fuel : nat) (folder_path base_filename filename : string)
    (counter : nat) (w : world) : option (string * string) :=
  let filepath := path_join folder_path filename in
  if path_exists filepath w then
    match fuel with
    | O => None
    | S fuel' =>
        free_name fuel' folder_path base_filename
          (numbered base_filename counter) (S counter) w
    end
  else Some (filename, filepath).

(** Iterations that are enough for the loop: one more than there are paths. *)
Definition enough_fuel (w : world) : nat := S (size (fs w)).

(** The identifier and the record [upload_file] adds to the metadata. *)
Definition upload_record (foldername filename filepath description : string)
    (hostname ip : string) (w : world) : string * FileRecord :=
  let is_img := is_image filename in
  (file_id_of foldername filename (clock w),
   {| folder := Some foldername;
      filename := Some filename;
      description := Some description;
      upload_date := Some (strftime (clock w));
      filepath := Some filepath;
      thumbnail :=
        Some (if is_img then Some (thumbnail_name foldername filename) else None);
      uploaded_by := Some hostname;
      system_ip := Some ip;
      file_size := Some (get_file_size filepath w);
      is_img := Some is_img |}).

(** The steps of [upload_file] from the file being written to the response;
    nothing here raises. *)
Definition register_upload (foldername filename filepath description : string)
    (hostname ip : string) (w : world) : response * world :=
  let w1 :=
    if is_image filename then
      (create_thumbnail filepath
         (path_join THUMBNAIL_DIR (thumbnail_name foldername filename)) w).2
    else w in
  match load_metadata w1 with
  | (Error, w2) => ((500, ErrorBody "Upload failed"), w2)
  | (Ok metadata, w2) =>
      let '(file_id, data) :=
        upload_record foldername filename filepath description hostname ip w2 in
      match save_metadata (dict_set file_id data metadata) w2 with
      | (Error, w3) => ((500, ErrorBody "Upload failed"), w3)
      | (Ok _, w3) =>
          (* a [False] result is only logged *)
          ((200, UploadBody foldername filename filepath hostname ip
                   (get_file_size filepath w3)), w3)
      end
  end.

(** [upload_file()]; [None] only if the duplicate loop ran out of fuel. *)
Definition upload_file (req : request) (w : world) : option (response * world) :=
  match req_file req with
  | None => Some ((400, ErrorBody "No file uploaded!"), w)
  | Some (file_name, file_bytes) =>
      let foldername := strip (default "" (req_foldername req)) in
      let description := strip (default "" (req_description req)) in
      if bool_decide (file_name = "") then
        Some ((400, ErrorBody "No file selected!"), w)
      else if bool_decide (foldername = "") then
        Some ((400, ErrorBody "Name is required!"), w)
      else
        let '(hostname, ip) := get_system_info w in
        match sanitize_foldername foldername with
        | None =>
            Some ((400, ErrorBody
              "Invalid name! Use only letters, numbers, spaces, hyphens and underscores."), w)
        | Some foldername =>
            match sanitize_filename file_name with
            | None =>
                Some ((400, ErrorBody
                  "Invalid filename! Please use a proper filename with extension."), w)
            | Some filename =>
                let folder_path := path_join UPLOAD_BASE foldername in
                match makedirs folder_path w with
                | Error => Some ((500, ErrorBody "Upload failed"), w)
                | Ok w1 =>
                    match free_name (enough_fuel w1) folder_path filename filename 1 w1 with
                    | None => None
                    | Some (filename, filepath) =>
                        match write_file filepath file_bytes w1 with
                        | Error => Some ((500, ErrorBody "Upload failed"), w1)
                        | Ok w2 =>
                            Some (register_upload foldername filename filepath
                                    description hostname ip w2)
                        end
                    end
                end
            end
        end
  end.

(** ** Gallery *)

Definition view_of (file_id : string) (data : FileRecord) : FileView :=
  {| v_id := file_id;
     v_folder := default "Unknown" (folder data);
     v_name := default "Unknown" (filename data);
     v_description := default "" (description data);
     v_date := default "Unknown" (upload_date data);
     v_thumbnail := default (Some "") (thumbnail data);
     v_uploaded_by := default "Unknown" (uploaded_by data);
     v_system_ip := default "Unknown" (system_ip data);
     v_file_size := default "Unknown" (file_size data);
     v_is_image := default false (is_img data) |}.

(** The loop of [gallery] over [all_files.items()]. *)
Definition collect (all_files : mapping)
    : list FileView * gset string * gset string :=
  foldl (λ '(files, unique_systems, unique_folders) '(file_id, data),
           (files ++ [view_of file_id data],
            {[ default "Unknown" (uploaded_by data) ]} ∪ unique_systems,
            {[ default "Unknown" (folder data) ]} ∪ unique_folders))
        ([], ∅, ∅) all_files.

(** [x] goes before the first element whose date is not greater than its
    own. *)
Fixpoint insert_by_date (x : FileView) (l : list FileView) : list FileView :=
  match l with
  | [] => [x]
  | y :: l' =>
      if String.ltb (v_date x) (v_date y) then y :: insert_by_date x l'
      else x :: l
  end.

(** [files.sort(key=lambda x: x.get('date', ''), reverse=True)]: the stable
    sort by descending date. *)
Definition sort_newest_first (l : list FileView) : list FileView :=
  foldr insert_by_date [] l.

(** [gallery()] *)
Definition gallery (w : world) : response * world :=
  match scan_all_uploads w with
  | (Error, w') => ((500, GalleryBody [] (mkStats 0 0 0)), w')
  | (Ok all_files, w') =>
      let '(files, unique_systems, unique_folders) := collect all_files in
      let files := sort_newest_first files in
      ((200, GalleryBody files
               {| total_files := length files;
                  total_folders := size unique_folders;
                  total_systems := size unique_systems |}), w')
  end.

End Server.

(** ** A reference platform

    An executable instance of the interface, for running the model on
    concrete worlds: ASCII character classes, werkzeug's algorithm on ASCII
    input, a compact JSON writer, and a reader that knows the documents the
    examples store. *)

Module Reference.

Definition quote : string := String "034"%char "".

Definition json_string (s : string) : string := quote +:+ s +:+ quote.

Definition json_field (k : string) (v : option string) : list string :=
  match v with
  | Some s => [json_string k +:+ ": " +:+ s]
  | None => []
  end.

Definition json_bool (b : bool) : string := if b then "true" else "false".

Fixpoint join_with (sep : string) (l : list string) : string :=
  match l with
  | [] => ""
  | [x] => x
  | x :: l' => x +:+ sep +:+ join_with sep l'
  end.

Definition json_record (r : FileRecord) : string :=
  "{" +:+ join_with ", "
    (json_field "folder" (json_string <$> folder r)
     ++ json_field "filename" (json_string <$> filename r)
     ++ json_field "description" (json_string <$> description r)
     ++ json_field "upload_date" (json_string <$> upload_date r)
     ++ json_field "filepath" (json_string <$> filepath r)
     ++ json_field "thumbnail" (from_option json_string "null" <$> thumbnail r)
     ++ json_field "uploaded_by" (json_string <$> uploaded_by r)
     ++ json_field "system_ip" (json_string <$> system_ip r)
     ++ json_field "file_size" (json_string <$> file_size r)
     ++ json_field "is_image" (json_bool <$> is_img r)) +:+ "}".

(** The JSON text of a mapping. *)
Definition json_text (m : mapping) : string :=
  "{" +:+ join_with ", "
    ((λ '(k, r), json_string k +:+ ": " +:+ json_record r) <$> m) +:+ "}".

Definition is_ascii_alnum (c : ascii) : bool :=
  let n := nat_of_ascii c in
  bool_decide (48 ≤ n ≤ 57) || bool_decide (65 ≤ n ≤ 90) || bool_decide (97 ≤ n ≤ 122).

(** [secure_filename] on ASCII input: separators become spaces, runs of
    white space become one underscore, characters outside [A-Za-z0-9_.-] are
    dropped, and dots and underscores are stripped from both ends. *)
Fixpoint lstrip_dots (l : list ascii) : list ascii :=
  match l with
  | c :: l' => if bool_decide (c ∈ ["."; "_"]%char) then lstrip_dots l' else l
  | [] => []
  end.

Definition ascii_secure_filename (s : string) : string :=
  let s := str ((λ c, if bool_decide (c = slash) then " "%char else c) <$> chars s) in
  let s := join_with "_" (String.words s) in
  let l := filter (λ c, is_ascii_alnum c || bool_decide (c ∈ ["_"; "."; "-"]%char)) (chars s) in
  str (reverse (lstrip_dots (reverse (lstrip_dots l)))).

Definition two_digits (n : N) : string :=
  (if (n <? 10)%N then "0" else "") +:+ pretty n.

(** A reader for JSON texts of the shape [json_text] writes: an object of
    objects whose fields are strings, [null], [true] or [false]; no escape
    sequences. *)
Inductive token :=
  | TLBrace | TRBrace | TColon | TComma
  | TStr (s : string)
  | TWord (s : string)
  | TOther (c : ascii).

Inductive lex_mode :=
  | Idle
  | InStr (acc : list ascii)
  | InWord (acc : list ascii).

Definition is_letter (c : ascii) : bool :=
  let n := nat_of_ascii c in bool_decide (97 ≤ n ≤ 122).

Definition flush (m : lex_mode) : list token :=
  match m with
  | InWord acc => [TWord (str (reverse acc))]
  | InStr acc => [TOther "034"%char]     (* unterminated string *)
  | Idle => []
  end.

Definition lex_step (st : list token * lex_mode) (c : ascii)
    : list token * lex_mode :=
  let '(ts, m) := st in
  match m with
  | InStr acc =>
      if bool_decide (c = "034"%char) then (ts ++ [TStr (str (reverse acc))], Idle)
      else (ts, InStr (c :: acc))
  | _ =>
      if is_letter c then
        (ts, InWord (c :: match m with InWord acc => acc | _ => [] end))
      else
        let ts := ts ++ flush m in
        if bool_decide (c = "034"%char) then (ts, InStr [])
        else if is_space c then (ts, Idle)
        else if bool_decide (c = "{"%char) then (ts ++ [TLBrace], Idle)
        else if bool_decide (c = "}"%char) then (ts ++ [TRBrace], Idle)
        else if bool_decide (c = ":"%char) then (ts ++ [TColon], Idle)
        else if bool_decide (c = ","%char) then (ts ++ [TComma], Idle)
        else (ts ++ [TOther c], Idle)
  end.

Definition lex (text : string) : list token :=
  let '(ts, m) := foldl lex_step ([], Idle) (chars text) in ts ++ flush m.

Inductive scalar := SStr (s : string) | SNull | SBool (b : bool).

Definition scalar_of (t : token) : option scalar :=
  match t with
  | TStr s => Some (SStr s)
  | TWord "null" => Some SNull
  | TWord "true" => Some (SBool true)
  | TWord "false" => Some (SBool false)
  | _ => None
  end.

(** The fields of an inner object, after its opening brace. *)
Fixpoint fields (ts : list token) : option (dict scalar * list token) :=
  match ts with
  | TStr k :: TColon :: v :: TRBrace :: rest =>
      sv ← scalar_of v; Some ([(k, sv)], rest)
  | TStr k :: TColon :: v :: TComma :: ts' =>
      sv ← scalar_of v; '(fs, rest) ← fields ts'; Some ((k, sv) :: fs, rest)
  | _ => None
  end.

Definition string_field (k : string) (d : dict scalar) : option (option string) :=
  match dict_get k (reverse d) with
  | None => Some None
  | Some (SStr s) => Some (Some s)
  | Some _ => None
  end.

(** The record of an inner object; [None] when a field has a value the
    record type has no place for. *)
Definition record_of (d : dict scalar) : option FileRecord :=
  fo ← string_field "folder" d;
  fi ← string_field "filename" d;
  de ← string_field "description" d;
  ud ← string_field "upload_date" d;
  fp ← string_field "filepath" d;
  th ← match dict_get "thumbnail" (reverse d) with
       | None => Some None
       | Some (SStr s) => Some (Some (Some s))
       | Some SNull => Some (Some None)
       | Some _ => None
       end;
  ub ← string_field "uploaded_by" d;
  ip ← string_field "system_ip" d;
  fz ← string_field "file_size" d;
  im ← match dict_get "is_image" (reverse d) with
       | None => Some None
       | Some (SBool b) => Some (Some b)
       | Some _ => None
       end;
  Some (mkRecord fo fi de ud fp th ub ip fz im).

Definition inner_object (ts : list token) : option (dict scalar * list token) :=
  match ts with
  | TLBrace :: TRBrace :: rest => Some ([], rest)
  | TLBrace :: ts' => fields ts'
  | _ => None
  end.

(** The entries of the outer object, after its opening brace; a key that
    occurs again replaces the earlier value. *)
Fixpoint entries (fuel : nat) (ts : list token) (acc : mapping) : document :=
  match fuel, ts with
  | S fuel', TStr k :: TColon :: ts' =>
      match inner_object ts' with
      | Some (d, TRBrace :: []) =>
          match record_of d with
          | Some r => Object (dict_set k r acc)
          | None => OtherError
          end
      | Some (d, TComma :: rest) =>
          match record_of d with
          | Some r => entries fuel' rest (dict_set k r acc)
          | None => OtherError
          end
      | _ => DecodeError
      end
  | _, _ => DecodeError
  end.

(** Bytes from 245 on occur in no UTF-8 text: reading such a file in text
    mode raises [UnicodeDecodeError] before any JSON is parsed. *)
Definition undecodable (text : string) : bool :=
  existsb (λ c, bool_decide (245 ≤ nat_of_ascii c)) (chars text).

Definition read_json (text : string) : document :=
  if undecodable text then OtherError else
  match lex text with
  | [TLBrace; TRBrace] => Object []
  | TLBrace :: ts => entries (length ts) ts []
  | [TStr _] | [TWord "null"] | [TWord "true"] | [TWord "false"] => NotObject
  | [TOther "["%char; TOther "]"%char] => NotObject
  | _ => DecodeError
  end.

#[export] Instance platform : Platform := {|
  json_load := read_json;
  json_dump := λ m, Some (json_text m);
  render_thumbnail := λ bytes,
    if bool_decide (bytes = "") then None else Some ("JPEG " +:+ bytes);
  float_str := λ t, pretty t +:+ ".0";
  strftime := λ t,
    let s := Z.to_N (t `mod` 86400) in
    "1970-01-01 " +:+ two_digits (s / 3600) +:+ ":"
      +:+ two_digits (s `mod` 3600 / 60) +:+ ":" +:+ two_digits (s `mod` 60);
  format_2f := λ a b,
    let c := ((a * 100 + b / 2) / b)%N in
    pretty (c / 100)%N +:+ "." +:+ two_digits (c `mod` 100)%N;
  isalnum := is_ascii_alnum;
  secure_filename := ascii_secure_filename
|}.

(** *** Example worlds *)

Definition tree (entries : list (string * node)) : world :=
  mkWorld (list_to_map entries) 1000 None.

Definition old_revision_record : FileRecord :=
  mkRecord (Some "a") (Some "b.txt") (Some "Auto-detected file")
    (Some "1970-01-01 00:01:40") (Some "uploads/a/b.txt") (Some None)
    (Some "Unknown") (Some "Unknown") (Some "5.00 B") (Some false).

(** The store knows [uploads/a/b.txt] from when its modification time was
    100; the file now has modification time 200. *)
Definition changed_mtime_world : world :=
  tree [("uploads", Dir); ("thumbnails", Dir); ("uploads/a", Dir);
        ("uploads/a/b.txt", File "hello" 200);
        (METADATA_FILE,
         File (json_text [("a_b.txt_100.0", old_revision_record)]) 150)].

(** The store has a record whose file is gone, next to one whose file is
    there. *)
Definition gone_record : FileRecord :=
  mkRecord (Some "a") (Some "gone.txt") (Some "") (Some "1970-01-01 00:01:00")
    (Some "uploads/a/gone.txt") (Some None) (Some "Aman") (Some "10.0.0.7")
    (Some "3.00 B") (Some false).

Definition stale_world : world :=
  tree [("uploads", Dir); ("thumbnails", Dir); ("uploads/a", Dir);
        ("uploads/a/b.txt", File "hello" 100);
        (METADATA_FILE,
         File (json_text [("a_gone.txt_60.0", gone_record);
                          ("a_b.txt_100.0", old_revision_record)]) 150)].



(** The store has a record that points at a thumbnail which is not there
    yet, a directory sits at the temporary path of the store, and
    [uploads/a/b.jpg] holds an image the imaging library can read. *)
Definition stale_thumbnail_record : FileRecord :=
  mkRecord None None None None (Some "thumbnails/a_b.jpg") None None None None None.

Definition blocked_save_world : world :=
  tree [("uploads", Dir); ("thumbnails", Dir); ("uploads/a", Dir);
        ("uploads/a/b.jpg", File "pixels" 200);
        (METADATA_FILE +:+ ".tmp", Dir);
        (METADATA_FILE, File (json_text [("x", stale_thumbnail_record)]) 150)].

(** The metadata file is cut off in the middle. *)
Definition corrupt_world : world :=
  tree [("uploads", Dir); ("thumbnails", Dir); (METADATA_FILE, File "{oops" 150)].

(** The metadata file holds the single byte 255, which is not UTF-8. *)
Definition undecodable_world : world :=
  tree [("uploads", Dir); ("thumbnails", Dir);
        (METADATA_FILE, File (String "255"%char "") 150)].


(** A fresh installation, and an upload request. *)
Definition fresh_world : world := tree [("uploads", Dir); ("thumbnails", Dir)].

Definition photo_request : request :=
  mkRequest (Some ("photo.jpg", "pixels")) (Some "Trip 2024") (Some "at the lake").

End Reference.

(** ** Vocabulary of the properties *)



(** A stripped string neither starts nor ends with white space. *)
Definition trimmed (s : string) : Prop :=
  (∀ c, head (chars s) = Some c → is_space c = false)
  ∧ (∀ c, last (chars s) = Some c → is_space c = false).

(** The host name [get_system_info] reports. *)
Definition reported_host (w : world) : string :=
  match resolver w with Some _ => "Aman" | None => "Unknown" end.

(** Two worlds hold the same nodes at the paths that satisfy [P]. *)
Definition agree_on (P : string → Prop) (w a : world) : Prop :=
  ∀ p, P p → fs w !! p = fs a !! p.

(** The upload directory and what is below it. *)
Definition in_uploads (p : string) : Prop := has_prefix UPLOAD_BASE p = true.

(** [w'] differs from [w] at thumbnail paths only. *)
Definition only_thumbnails (w w' : world) : Prop :=
  clock w' = clock w ∧ resolver w' = resolver w
  ∧ ∀ p, (∀ x, p ≠ path_join THUMBNAIL_DIR x) → fs w' !! p = fs w !! p.

(** [w'] differs from [w] at the three paths of the store only. *)
Definition only_store (w w' : world) : Prop :=
  ∀ p, p ∉ [METADATA_FILE; BACKUP_FILE; TEMP_FILE] → fs w' !! p = fs w !! p.

(** A name a directory entry can have. *)
Definition entry_name (n : string) : Prop := n ≠ "" ∧ slash ∉ chars n.

Definition entry_path (fo fn : string) : string :=
  path_join (path_join UPLOAD_BASE fo) fn.

(** The record still has its file. *)
Definition kept (w : world) (kv : string * FileRecord) : bool :=
  match filepath kv.2 with
  | Some p => path_exists p w
  | None => false
  end.


(** The file names in the answers of successful uploads. *)
Definition stored_name (r : response) : option string :=
  match r.2 with
  | UploadBody _ name _ _ _ _ => Some name
  | _ => None
  end.

Definition stored_names (rs : list response) : list string :=
  omap stored_name rs.

(** The sanitised name, then its numbered variants in order. *)
Definition candidates (base : string) (n : nat) : list string :=
  match n with
  | O => []
  | S m => base :: (numbered base <$> seq 1 m)
  end.

(** The name an upload stores the file under is the sanitised name or one
    of its numbered variants. *)
Definition variant_of (base name : string) : Prop :=
  name = base ∨ ∃ j, 1 ≤ j ∧ name = numbered base j.

(** The path of a stored name. *)
Definition stored_at (fo name : string) : string :=
  path_join (path_join UPLOAD_BASE fo) name.

Section Vocabulary.
Context `{Platform}.

(** The identifier and the record reconciliation gives to the entry [fn] of
    folder [fo], when it is a regular file. *)
Definition discovered (w : world) (fo fn : string) : option (string * FileRecord) :=
  match fs w !! entry_path fo fn with
  | Some (File _ t) =>
      Some (file_id_of fo fn t,
            {| folder := Some fo;
               filename := Some fn;
               description := Some "Auto-detected file";
               upload_date := Some (strftime t);
               filepath := Some (entry_path fo fn);
               thumbnail :=
                 Some (if is_image fn then Some (thumbnail_name fo fn) else None);
               uploaded_by := Some "Unknown";
               system_ip := Some "Unknown";
               file_size := Some (get_file_size (entry_path fo fn) w);
               is_img := Some (is_image fn) |})
  | _ => None
  end.

Definition add_entry (w : world) (all_files : mapping) (e : string * string)
    : mapping :=
  match discovered w e.1 e.2 with
  | Some (file_id, data) =>
      if dict_has file_id all_files then all_files
      else dict_set file_id data all_files
  | None => all_files
  end.

(** The entries reconciliation visits, in order. *)
Definition folder_entries (w : world) (fo : string) : list (string * string) :=
  if isdir (path_join UPLOAD_BASE fo) w
  then (λ fn, (fo, fn)) <$> elements (children (path_join UPLOAD_BASE fo) (fs w))
  else [].

Definition upload_entries (w : world) : list (string * string) :=
  elements (children UPLOAD_BASE (fs w)) ≫= folder_entries w.

(** The mapping a pass returns, from the metadata it loaded and the world
    after loading. *)
Definition reconciled (w1 : world) (metadata : mapping) : mapping :=
  if path_exists UPLOAD_BASE w1
  then foldl (add_entry w1) (keep_existing w1 metadata) (upload_entries w1)
  else keep_existing w1 metadata.

(** A pass raises only when the upload directory is there but is not a
    directory. *)
Definition upload_base_ok (w : world) : bool :=
  negb (path_exists UPLOAD_BASE w) || isdir UPLOAD_BASE w.

(** [n] uploads of the same request, one after the other. *)
Fixpoint upload_many (n : nat) (req : request) (w : world)
    : option (list response * world) :=
  match n with
  | O => Some ([], w)
  | S n' =>
      '(r, w1) ← upload_file req w;
      '(rs, w2) ← upload_many n' req w1;
      Some (r :: rs, w2)
  end.

(** In [w], a metadata file whose content is no JSON value makes
    [load_metadata] return the empty mapping and, unless the backup path is
    a directory, leaves the bytes of the file at the backup path. *)
Definition backs_up_when_invalid (w : world) : Prop :=
  ∀ text t,
    fs w !! METADATA_FILE = Some (File text t) →
    json_load text = DecodeError ∨ json_load text = OtherError →
    (load_metadata w).1 = Ok []
    ∧ (isdir BACKUP_FILE w = false →
       fs (load_metadata w).2 !! BACKUP_FILE = Some (File text t)).


(** Two passes in a row from [w] return the same mapping. *)
Definition idempotent_at (w : world) : Prop :=
  ∀ first w' second w'',
    scan_all_uploads w = (Ok first, w') →
    scan_all_uploads w' = (Ok second, w'') →
    second = first.

End Vocabulary.

(** Every path that exists in [w] holds the same node in [w']. *)
Definition preserves (w w' : world) : Prop :=
  ∀ p, is_Some (fs w !! p) → fs w' !! p = fs w !! p.

(** The three paths of the metadata store. *)
Definition STORE_PATHS : list string := [METADATA_FILE; BACKUP_FILE; TEMP_FILE].

(** * Properties *)

(** ** Paths of the store *)

Lemma dirname_plain (p : string) : contains slash p = false → dirname p = "".
Proof. unfold dirname. by intros ->. Qed.

Lemma parent_ok_plain (p : string) (w : world) :
  contains slash p = false → parent_ok p w = true.
Proof. intros Hp. unfold parent_ok. by rewrite dirname_plain. Qed.

Lemma path_exists_true (p : string) (w : world) :
  path_exists p w = true ↔ is_Some (fs w !! p).
Proof. unfold path_exists. by rewrite bool_decide_eq_true. Qed.

Lemma path_exists_false (p : string) (w : world) :
  path_exists p w = false ↔ fs w !! p = None.
Proof.
  unfold path_exists. rewrite bool_decide_eq_false.
  by rewrite eq_None_not_Some.
Qed.

Lemma isdir_true (p : string) (w : world) :
  isdir p w = true ↔ fs w !! p = Some Dir.
Proof. unfold isdir. by rewrite bool_decide_eq_true. Qed.

Lemma isdir_false (p : string) (w : world) :
  isdir p w = false ↔ fs w !! p ≠ Some Dir.
Proof. unfold isdir. by rewrite bool_decide_eq_false. Qed.

Lemma isfile_true (p : string) (w : world) :
  isfile p w = true ↔ ∃ data t, fs w !! p = Some (File data t).
Proof.
  unfold isfile. destruct (fs w !! p) as [[data t|]|]; split; try done.
  - eauto.
  - by intros (? & ? & ?).
  - by intros (? & ? & ?).
Qed.

(** ** The metadata store *)

Section Store.
Context `{Platform}.

(** [load_metadata] catches whatever its body raises. *)
Lemma load_metadata_never_raises (w : world) :
  ∃ data, (load_metadata w).1 = Ok data.
Proof.
  unfold load_metadata.
  destruct (path_exists METADATA_FILE w); [|by eexists].
  destruct (read_document w); try by eexists.
  destruct (os_rename _ _ w); by eexists.
Qed.


Lemma read_document_file (w : world) (text : string) (t : Z) :
  fs w !! METADATA_FILE = Some (File text t) → read_document w = json_load text.
Proof. intros Hf. unfold read_document, read_file. by rewrite Hf. Qed.

(** C4, as amended.  When the metadata file holds text that [json.load]
    rejects with a [JSONDecodeError], [load_metadata] does not raise and
    returns the empty mapping.  Unless the backup path is a directory (the rename fails, which
    is ignored, and nothing changes), the file is moved to
    [photo_metadata.json.backup] with its bytes and time stamp, and no other
    path changes. *)
Theorem load_metadata_corrupt (w : world) (text : string) (t : Z) :
  fs w !! METADATA_FILE = Some (File text t) →
  json_load text = DecodeError →
  (load_metadata w).1 = Ok [] ∧
  if isdir BACKUP_FILE w then (load_metadata w).2 = w
  else fs (load_metadata w).2 !! BACKUP_FILE = Some (File text t)
       ∧ fs (load_metadata w).2 !! METADATA_FILE = None
       ∧ ∀ p, p ≠ BACKUP_FILE → p ≠ METADATA_FILE →
              fs (load_metadata w).2 !! p = fs w !! p.
Proof.
  intros Hf Hbad. unfold load_metadata.
  assert (path_exists METADATA_FILE w = true) as ->.
  { apply path_exists_true. by rewrite Hf. }
  rewrite (read_document_file w text t Hf), Hbad.
  unfold os_rename. rewrite Hf.
  rewrite (parent_ok_plain BACKUP_FILE w) by done.
  destruct (isdir BACKUP_FILE w); simpl; [done|].
  split; [done|]. split; [by rewrite lookup_insert_eq|].
  split.
  - rewrite lookup_insert_ne by done. by rewrite lookup_delete_eq.
  - intros p Hp1 Hp2. rewrite lookup_insert_ne by done.
    by rewrite lookup_delete_ne.
Qed.


(** The [except] branch of [save_metadata] leaves no regular file at the
    temporary path and touches nothing else. *)
Lemma cleanup_temp (w : world) :
  ∃ w', (if path_exists TEMP_FILE w
         then match os_remove TEMP_FILE w with
              | Ok w'' => (Ok false, w'')
              | Error => (Ok false, w)
              end
         else (Ok false, w)) = (Ok false, w')
        ∧ isfile TEMP_FILE w' = false
        ∧ clock w' = clock w ∧ resolver w' = resolver w
        ∧ ∀ p, p ≠ TEMP_FILE → fs w' !! p = fs w !! p.
Proof.
  unfold os_remove.
  destruct (isfile TEMP_FILE w) eqn:Hfile.
  - assert (path_exists TEMP_FILE w = true) as ->.
    { apply path_exists_true. apply isfile_true in Hfile as (? & ? & ->). eauto. }
    eexists. split; [done|]. simpl. split.
    + unfold isfile. simpl. by rewrite lookup_delete_eq.
    + repeat split; try done. intros p Hp. by rewrite lookup_delete_ne.
  - exists w. split; [by destruct (path_exists TEMP_FILE w)|done].
Qed.

Lemma write_file_ok (p data : string) (w w' : world) :
  write_file p data w = Ok w' →
  w' = set_fs w (<[p := File data (clock w)]> (fs w)).
Proof.
  unfold write_file. destruct (isdir p w || negb (parent_ok p w)); congruence.
Qed.

(** Closes a branch of [save_metadata_spec] in which the body raised in a
    world [wa] that agrees with the initial one outside the temporary
    path. *)
Local Ltac save_failed Hc1 Hr1 Hf1 :=
  let w' := fresh "w'" in
  let Hf := fresh in let Hc := fresh in let Hr := fresh in let Hfr := fresh in
  match goal with
  | |- context [os_remove TEMP_FILE ?wa] =>
      destruct (cleanup_temp wa) as (w' & -> & Hf & Hc & Hr & Hfr)
  end;
  exists false, w'; split; [done|];
  split; [congruence|]; split; [congruence|];
  split; [intros ? ? _; rewrite Hfr by done; by apply Hf1|];
  split; [done|]; intros _; split; [done|];
  rewrite Hfr by done; by apply Hf1.

(** What [save_metadata] does to the world, whichever way it ends. *)
Lemma save_metadata_spec (data : mapping) (w : world) :
  ∃ b w', save_metadata data w = (Ok b, w')
    ∧ clock w' = clock w ∧ resolver w' = resolver w
    ∧ (∀ p, p ≠ TEMP_FILE → p ≠ METADATA_FILE → fs w' !! p = fs w !! p)
    ∧ (b = true →
         ∃ text w1 w2, json_dump data = Some text
           ∧ write_file TEMP_FILE "" w = Ok w1
           ∧ write_file TEMP_FILE text w1 = Ok w2
           ∧ os_rename TEMP_FILE METADATA_FILE w2 = Ok w'
           ∧ fs w' !! METADATA_FILE = Some (File text (clock w))
           ∧ fs w' !! TEMP_FILE = None)
    ∧ (b = false →
         isfile TEMP_FILE w' = false
         ∧ fs w' !! METADATA_FILE = fs w !! METADATA_FILE).
Proof.
  unfold save_metadata, write_and_replace.
  assert (∀ p : string, p ≠ TEMP_FILE → fs w !! p = fs w !! p) as Hf0 by done.
  destruct (write_file TEMP_FILE "" w) as [w1|] eqn:Hw1;
    [|save_failed (eq_refl (clock w)) (eq_refl (resolver w)) Hf0].
  pose proof (write_file_ok _ _ _ _ Hw1) as E1.
  assert (clock w1 = clock w ∧ resolver w1 = resolver w
          ∧ ∀ p, p ≠ TEMP_FILE → fs w1 !! p = fs w !! p) as (Hc1 & Hr1 & Hf1).
  { subst w1. repeat split; try done. intros p Hp. simpl.
    by rewrite lookup_insert_ne. }
  destruct (json_dump data) as [text|]; [|save_failed Hc1 Hr1 Hf1].
  destruct (write_file TEMP_FILE text w1) as [w2|] eqn:Hw2;
    [|save_failed Hc1 Hr1 Hf1].
  pose proof (write_file_ok _ _ _ _ Hw2) as E2.
  assert (clock w2 = clock w ∧ resolver w2 = resolver w
          ∧ fs w2 !! TEMP_FILE = Some (File text (clock w))
          ∧ ∀ p, p ≠ TEMP_FILE → fs w2 !! p = fs w !! p) as (Hc2 & Hr2 & Ht2 & Hf2).
  { subst w2. simpl. repeat split; try done.
    - rewrite lookup_insert_eq. by rewrite Hc1.
    - intros p Hp. rewrite lookup_insert_ne by done. by apply Hf1. }
  assert (os_replace = os_rename) as -> by done.
  assert (∀ b : bool, (if b then os_rename TEMP_FILE METADATA_FILE w2
                       else os_rename TEMP_FILE METADATA_FILE w2)
                      = os_rename TEMP_FILE METADATA_FILE w2) as ->
    by (by intros []).
  destruct (os_rename TEMP_FILE METADATA_FILE w2) as [w3|] eqn:Hw3;
    [|save_failed Hc2 Hr2 Hf2].
  exists true, w3. split; [done|].
  unfold os_rename in Hw3. rewrite Ht2 in Hw3.
  destruct (isdir METADATA_FILE w2 || negb (parent_ok METADATA_FILE w2)) eqn:Hd;
    [done|].
  injection Hw3 as <-. simpl. repeat split; try done.
  - intros p Hp1 Hp2. rewrite lookup_insert_ne by done.
    rewrite lookup_delete_ne by done. by apply Hf2.
  - intros _. exists text, w1, w2. repeat split; try done.
    + unfold os_rename. by rewrite Ht2, Hd.
    + by rewrite lookup_insert_eq.
    + rewrite lookup_insert_ne by done. by rewrite lookup_delete_eq.
Qed.

(** [register_upload] answers 200 whatever [save_metadata] returned. *)
Lemma register_upload_status (fo fi fp de ho ip : string) (w : world) :
  (register_upload fo fi fp de ho ip w).1.1 = 200.
Proof.
  unfold register_upload.
  match goal with |- context [load_metadata ?w1] =>
    destruct (load_metadata_never_raises w1) as [m Hm];
    destruct (load_metadata w1) as [o w2] end.
  simpl in Hm. subst o. simpl.
  match goal with |- context [save_metadata ?d ?w1] =>
    destruct (save_metadata_spec d w1) as (b & w3 & -> & _) end.
  done.
Qed.


End Store.

(** ** The gallery listing *)








Lemma collect_spec (all_files : mapping) :
  collect all_files =
    ((λ '(file_id, data), view_of file_id data) <$> all_files,
     list_to_set ((λ kv, default "Unknown" (uploaded_by kv.2)) <$> all_files),
     list_to_set ((λ kv, default "Unknown" (folder kv.2)) <$> all_files)).
Proof.
  unfold collect.
  induction all_files as [|[k d] l IH] using rev_ind; [done|].
  rewrite foldl_snoc, IH, !fmap_app. simpl.
  rewrite !list_to_set_snoc_L. f_equal; [f_equal|]; apply (comm_L _).
Qed.

Section Gallery.
Context `{Platform}.


End Gallery.

(** ** Strings as character lists *)

Lemma chars_str (l : list ascii) : chars (str l) = l.
Proof. apply list_ascii_of_string_of_list_ascii. Qed.

Lemma str_chars (s : string) : str (chars s) = s.
Proof. apply string_of_list_ascii_of_string. Qed.

Lemma chars_inj (s1 s2 : string) : chars s1 = chars s2 → s1 = s2.
Proof. intros E. by rewrite <- (str_chars s1), <- (str_chars s2), E. Qed.

Lemma chars_app (s1 s2 : string) : chars (s1 +:+ s2) = chars s1 ++ chars s2.
Proof. induction s1 as [|a s1 IH]; simpl; [done|]. by rewrite <- IH. Qed.

Lemma chars_length (s : string) : length (chars s) = String.length s.
Proof. induction s as [|a s IH]; simpl; [done|]. by rewrite IH. Qed.

Lemma chars_nil (s : string) : chars s = [] ↔ s = "".
Proof. split; [|by intros ->]. intros E. by apply chars_inj. Qed.

Lemma contains_true (c : ascii) (s : string) :
  contains c s = true ↔ c ∈ chars s.
Proof. unfold contains. by rewrite bool_decide_eq_true. Qed.

Lemma contains_false (c : ascii) (s : string) :
  contains c s = false ↔ c ∉ chars s.
Proof. unfold contains. by rewrite bool_decide_eq_false. Qed.

(** ** White space stripping *)

Lemma lstrip_suffix (l : list ascii) : lstrip l `suffix_of` l.
Proof.
  induction l as [|c l IH]; simpl; [done|].
  destruct (is_space c); [by apply suffix_cons_r|done].
Qed.

Lemma lstrip_head (l : list ascii) (c : ascii) :
  head (lstrip l) = Some c → is_space c = false.
Proof.
  induction l as [|a l IH]; simpl; [done|].
  destruct (is_space a) eqn:Ha; [done|]. simpl. by intros [= <-].
Qed.

Lemma suffix_last (l k : list ascii) :
  l `suffix_of` k → l ≠ [] → last l = last k.
Proof.
  intros [pre ->] Hl. destruct l as [|a l] using rev_ind; [done|].
  by rewrite app_assoc, !last_snoc.
Qed.

Lemma head_reverse (l : list ascii) : head (reverse l) = last l.
Proof.
  destruct l as [|a l] using rev_ind; [done|].
  by rewrite reverse_snoc, last_snoc.
Qed.

Lemma last_reverse (l : list ascii) : last (reverse l) = head l.
Proof. by rewrite <- head_reverse, reverse_involutive. Qed.

Lemma strip_chars_trimmed (l : list ascii) :
  (∀ c, head (strip_chars l) = Some c → is_space c = false)
  ∧ (∀ c, last (strip_chars l) = Some c → is_space c = false).
Proof.
  unfold strip_chars. split; intros c.
  - rewrite head_reverse. intros Hc.
    assert (lstrip (reverse (lstrip l)) ≠ []) as Hne by (by intros E; rewrite E in Hc).
    rewrite (suffix_last _ _ (lstrip_suffix _) Hne), last_reverse in Hc.
    by apply lstrip_head in Hc.
  - rewrite last_reverse. apply lstrip_head.
Qed.

Lemma strip_trimmed (s : string) : trimmed (strip s).
Proof. unfold trimmed, strip. rewrite chars_str. apply strip_chars_trimmed. Qed.

Lemma strip_chars_subseteq (l : list ascii) : strip_chars l ⊆ l.
Proof.
  unfold strip_chars. intros c. rewrite elem_of_reverse. intros Hc.
  pose proof (elem_of_suffix _ _ _ Hc (lstrip_suffix _)) as Hc'.
  rewrite elem_of_reverse in Hc'.
  exact (elem_of_suffix _ _ _ Hc' (lstrip_suffix _)).
Qed.

(** ** Sanitisation *)

Lemma filter_forallb (f : ascii → bool) (l : list ascii) :
  forallb f l = true → filter (λ c, f c) l = l.
Proof.
  induction l as [|a l IH]; simpl; [done|].
  intros [Ha Hl]%andb_true_iff. rewrite filter_cons.
  destruct (decide (f a)) as [|Hn]; [by rewrite IH|].
  by rewrite Ha in Hn.
Qed.

Section Sanitize.
Context `{Platform}.

Lemma sanitize_foldername_Some (s r : string) :
  sanitize_foldername s = Some r →
  r ≠ "" ∧ String.length r ≤ 100
  ∧ Forall (λ c, foldername_char c = true) (chars r)
  ∧ trimmed r.
Proof.
  unfold sanitize_foldername.
  destruct (bool_decide (s = "")); [done|].
  set (kept := str (filter (λ c, foldername_char c) (chars s))).
  destruct (bool_decide (strip kept = "")) eqn:Hne; [done|].
  destruct (bool_decide (100 < String.length (strip kept))) eqn:Hlen; [done|].
  simpl. intros [= <-].
  apply bool_decide_eq_false in Hne, Hlen.
  split; [done|]. split; [lia|]. split; [|apply strip_trimmed].
  apply Forall_forall. intros c Hc. unfold strip in Hc.
  rewrite chars_str in Hc. apply strip_chars_subseteq in Hc.
  unfold kept in Hc. rewrite chars_str in Hc.
  apply list_elem_of_filter in Hc as [Hc _]. by apply Is_true_true.
Qed.

Lemma sanitize_filename_Some (s r : string) :
  sanitize_filename s = Some r →
  r = str (filter (λ c, filename_char c) (chars (secure_filename s)))
  ∧ r ≠ ""
  ∧ Forall (λ c, filename_char c = true) (chars r)
  ∧ dot ∈ chars r.
Proof.
  unfold sanitize_filename.
  destruct (bool_decide (s = "")); [done|].
  set (kept := str (filter (λ c, filename_char c) (chars (secure_filename s)))).
  destruct (bool_decide (kept = "")) eqn:Hne; [done|].
  destruct (contains dot kept) eqn:Hdot; [|done].
  simpl. intros [= <-].
  apply bool_decide_eq_false in Hne. apply contains_true in Hdot.
  split; [done|]. split; [done|]. split; [|done].
  apply Forall_forall. intros c Hc. unfold kept in Hc.
  rewrite chars_str in Hc.
  apply list_elem_of_filter in Hc as [Hc _]. by apply Is_true_true.
Qed.

(** [upload_file] answers 400 and changes nothing when a sanitiser
    rejects its input. *)
Lemma upload_rejects (file_name bytes : string) (fo de : option string)
    (w : world) :
  sanitize_foldername (strip (default "" fo)) = None
  ∨ sanitize_filename file_name = None →
  ∃ msg, upload_file (mkRequest (Some (file_name, bytes)) fo de) w
         = Some ((400, ErrorBody msg), w).
Proof.
  intros Hbad. unfold upload_file. simpl.
  destruct (bool_decide (file_name = "")); [by eexists|].
  destruct (bool_decide (strip (default "" fo) = "")); [by eexists|].
  destruct (get_system_info w) as [hostname ip].
  destruct (sanitize_foldername (strip (default "" fo))) as [foldername|];
    [|by eexists].
  destruct Hbad as [?| ->]; [done|]. by eexists.
Qed.

(** C6.  Given that [isalnum] is false on the separator and on the dot, and
    that [secure_filename] returns, for this file name, characters the
    second filter keeps and no leading dot:
    - a folder name that passes [sanitize_foldername] is not empty, has at
      most 100 characters, all of them alphanumeric, space, hyphen or
      underscore, has no white space at either end, and contains neither a
      separator nor a dot;
    - a file name that passes [sanitize_filename] is not empty, consists of
      alphanumerics, underscores, hyphens and dots, contains a dot,
      contains no separator, and is neither [.] nor [..];
    - when either sanitiser returns [None], [upload_file] answers 400 and
      leaves the world as it is. *)
Theorem sanitizers_block_traversal (folder_in file_in : string) :
  isalnum slash = false →
  isalnum dot = false →
  forallb filename_char (chars (secure_filename file_in)) = true →
  starts_with dot (secure_filename file_in) = false →
  (∀ r, sanitize_foldername folder_in = Some r →
        r ≠ "" ∧ String.length r ≤ 100
        ∧ Forall (λ c, foldername_char c = true) (chars r)
        ∧ trimmed r
        ∧ (slash ∉ chars r) ∧ (dot ∉ chars r))
  ∧ (∀ r, sanitize_filename file_in = Some r →
        r ≠ ""
        ∧ Forall (λ c, filename_char c = true) (chars r)
        ∧ dot ∈ chars r
        ∧ (slash ∉ chars r) ∧ r ≠ "." ∧ r ≠ "..")
  ∧ (∀ bytes fo de w,
        sanitize_foldername (strip (default "" fo)) = None
        ∨ sanitize_filename file_in = None →
        ∃ msg, upload_file (mkRequest (Some (file_in, bytes)) fo de) w
               = Some ((400, ErrorBody msg), w)).
Proof.
  intros Hslash Hdot Hsecure Hlead. split; [|split].
  - intros r Hr.
    destruct (sanitize_foldername_Some _ _ Hr) as (Hne & Hlen & Hall & Htrim).
    repeat split; try done; try apply Htrim.
    + intros Hin. rewrite Forall_forall in Hall. apply Hall in Hin.
      unfold foldername_char in Hin. by rewrite Hslash in Hin.
    + intros Hin. rewrite Forall_forall in Hall. apply Hall in Hin.
      unfold foldername_char in Hin. by rewrite Hdot in Hin.
  - intros r Hr.
    destruct (sanitize_filename_Some _ _ Hr) as (Hr' & Hne & Hall & Hd).
    assert (r = secure_filename file_in) as Hid.
    { rewrite Hr'. rewrite <- (str_chars (secure_filename file_in)) at 2.
      f_equal. by apply filter_forallb. }
    repeat split; try done.
    + intros Hin. rewrite Forall_forall in Hall. apply Hall in Hin.
      unfold filename_char in Hin. by rewrite Hslash in Hin.
    + intros ->. by rewrite <- Hid in Hlead.
    + intros ->. by rewrite <- Hid in Hlead.
  - intros bytes fo de w. apply upload_rejects.
Qed.

End Sanitize.

(** ** Upload *)

Section Upload.
Context `{Platform}.

(** The steps behind a 200 answer of [upload_file]. *)
Lemma upload_ok_inv (req : request) (w w' : world) (b : body) :
  upload_file req w = Some ((200, b), w') →
  ∃ file_name bytes foldername filename w1 name path w2,
    req_file req = Some (file_name, bytes)
    ∧ sanitize_foldername (strip (default "" (req_foldername req))) = Some foldername
    ∧ sanitize_filename file_name = Some filename
    ∧ makedirs (path_join UPLOAD_BASE foldername) w = Ok w1
    ∧ free_name (enough_fuel w1) (path_join UPLOAD_BASE foldername)
        filename filename 1 w1 = Some (name, path)
    ∧ write_file path bytes w1 = Ok w2
    ∧ register_upload foldername name path
        (strip (default "" (req_description req)))
        (get_system_info w).1 (get_system_info w).2 w2 = ((200, b), w').
Proof.
  unfold upload_file.
  destruct (req_file req) as [[file_name bytes]|]; [|done].
  destruct (bool_decide (file_name = "")); [done|].
  destruct (bool_decide (strip (default "" (req_foldername req)) = ""));
    [done|].
  destruct (get_system_info w) as [hostname ip].
  destruct (sanitize_foldername _) as [foldername|] eqn:Hfo; [|done].
  destruct (sanitize_filename file_name) as [filename|] eqn:Hfi; [|done].
  destruct (makedirs _ w) as [w1|] eqn:Hmk; [|done].
  destruct (free_name _ _ _ _ _ w1) as [[name path]|] eqn:Hfree; [|done].
  destruct (write_file path bytes w1) as [w2|] eqn:Hwr; [|done].
  intros [= Hreg].
  exists file_name, bytes, foldername, filename, w1, name, path, w2.
  repeat split; done.
Qed.

Lemma register_upload_inv (fo fi fp de ho ip : string) (w w' : world) (r : response) :
  register_upload fo fi fp de ho ip w = (r, w') →
  ∃ w2 metadata saved,
    r = (200, UploadBody fo fi fp ho ip (get_file_size fp w'))
    ∧ save_metadata
        (dict_set (upload_record fo fi fp de ho ip w2).1
                  (upload_record fo fi fp de ho ip w2).2 metadata) w2
      = (Ok saved, w').
Proof.
  unfold register_upload.
  match goal with |- context [load_metadata ?w1] =>
    destruct (load_metadata_never_raises w1) as [m Hm];
    destruct (load_metadata w1) as [o w2] end.
  simpl in Hm. subst o. simpl.
  match goal with |- context [save_metadata ?d ?w1] =>
    destruct (save_metadata_spec d w1) as (saved & w3 & E & _) end.
  rewrite E. intros [= <- <-]. by exists w2, m, saved.
Qed.

Lemma get_system_info_host (w : world) : (get_system_info w).1 = reported_host w.
Proof. unfold get_system_info, reported_host. by destruct (resolver w). Qed.

(** C10.  In the answer of a successful upload, and in the record the
    upload hands to [save_metadata], [uploaded_by] is ["Aman"] when the
    lookup of that name succeeds and ["Unknown"] when it fails.  A gallery
    over records that carry one of these two values reports at most two
    systems. *)
Theorem uploaded_by_is_fixed_name (req : request) (w w' : world) (b : body) :
  upload_file req w = Some ((200, b), w') →
  (∃ fo fi fp de ip size w2 metadata saved,
     b = UploadBody fo fi fp (reported_host w) ip size
     ∧ (let '(file_id, data) :=
            upload_record fo fi fp de (reported_host w) ip w2 in
        uploaded_by data = Some (reported_host w)
        ∧ save_metadata (dict_set file_id data metadata) w2 = (Ok saved, w')))
  ∧ (reported_host w = "Aman" ∧ is_Some (resolver w)
     ∨ reported_host w = "Unknown" ∧ resolver w = None)
  ∧ ∀ w0 w0' all_files,
      scan_all_uploads w0 = (Ok all_files, w0') →
      Forall (λ kv, uploaded_by kv.2 = Some "Aman"
                    ∨ uploaded_by kv.2 = Some "Unknown") all_files →
      ∃ files stats, gallery w0 = ((200, GalleryBody files stats), w0')
                     ∧ total_systems stats ≤ 2.
Proof.
  intros Hup. split; [|split].
  - apply upload_ok_inv in Hup
      as (file_name & bytes & fo & filename & w1 & fi & fp & w2 & _ & _ & _ & _ & _ & _ & Hreg).
    apply register_upload_inv in Hreg as (w3 & metadata & saved & [= ->] & Hsave).
    rewrite get_system_info_host in *.
    by exists fo, fi, fp, (strip (default "" (req_description req))),
      (get_system_info w).2, (get_file_size fp w'), w3, metadata, saved.
  - unfold reported_host. destruct (resolver w); eauto.
  - intros w0 w0' all_files Hscan Hall.
    unfold gallery. rewrite Hscan, collect_spec.
    do 2 eexists. split; [done|]. simpl.
    set (names := (λ kv : string * FileRecord, default "Unknown" (uploaded_by kv.2)) <$> all_files).
    assert (list_to_set names ⊆@{gset string} {[ "Aman"; "Unknown" ]}) as Hsub.
    { intros x. rewrite elem_of_list_to_set. unfold names.
      rewrite list_elem_of_fmap. intros (kv & -> & Hkv).
      rewrite Forall_forall in Hall. destruct (Hall kv Hkv) as [-> | ->];
        set_solver. }
    apply subseteq_size in Hsub. etrans; [exact Hsub|].
    by vm_compute.
Qed.

End Upload.

(** ** Dictionaries *)

Section Dict.
Context {V : Type}.
Implicit Types (k : string) (v : V) (d : dict V).


Lemma dict_has_false k d : dict_has k d = false ↔ k ∉ d.*1.
Proof. unfold dict_has. by rewrite bool_decide_eq_false. Qed.

Lemma dict_set_keys k v d :
  (dict_set k v d).*1 = if dict_has k d then d.*1 else d.*1 ++ [k].
Proof.
  induction d as [|[k' v'] d IH]; [done|].
  unfold dict_has in *. cbn [dict_set fmap list_fmap fst].
  destruct (decide (k' = k)) as [->|Hne].
  - rewrite bool_decide_eq_true_2 by done.
    by rewrite bool_decide_eq_true_2 by (by left).
  - rewrite bool_decide_eq_false_2 by done.
    cbn [fmap list_fmap fst]. fold (@fmap list _ _ _ (@fst string V)).
    rewrite IH.
    destruct (decide (k ∈ d.*1)) as [Hin|Hin].
    + rewrite !bool_decide_eq_true_2; [done| |done]. by right.
    + rewrite !bool_decide_eq_false_2; [done| |done].
      intros [?|?]%elem_of_cons; congruence.
Qed.

(** Setting a key that is not there appends the entry. *)
Lemma dict_set_fresh k v d : dict_has k d = false → dict_set k v d = d ++ [(k, v)].
Proof.
  rewrite dict_has_false.
  induction d as [|[k' v'] d IH]; simpl; [done|]. intros Hk.
  rewrite bool_decide_eq_false_2 by (intros ->; apply Hk; by left).
  f_equal. apply IH. intros ?. apply Hk. by right.
Qed.

Lemma dict_set_NoDup k v d : NoDup d.*1 → NoDup (dict_set k v d).*1.
Proof.
  intros Hd. rewrite dict_set_keys. destruct (dict_has k d) eqn:Hk; [done|].
  apply dict_has_false in Hk. apply NoDup_app. repeat split; try done.
  - intros x Hx ->%list_elem_of_singleton. done.
  - apply NoDup_singleton.
Qed.

Lemma elem_of_dict_set k v d (kv : string * V) :
  kv ∈ dict_set k v d → kv = (k, v) ∨ kv ∈ d.
Proof.
  induction d as [|[k' v'] d IH]; simpl.
  - intros ->%list_elem_of_singleton. by left.
  - destruct (bool_decide (k' = k)).
    + intros [->|?]%elem_of_cons; [by left|]. right. by right.
    + intros [->|?]%elem_of_cons; [right; by left|].
      destruct IH as [?|?]; [done|by left|]. right. by right.
Qed.

Lemma dict_get_app_l k d1 d2 v :
  dict_get k d1 = Some v → dict_get k (d1 ++ d2) = Some v.
Proof.
  induction d1 as [|[k' v'] d1 IH]; simpl; [done|].
  destruct (bool_decide (k' = k)); [done|]. apply IH.
Qed.


Lemma dict_get_elem_of k d v : NoDup d.*1 → (k, v) ∈ d → dict_get k d = Some v.
Proof.
  induction d as [|[k' v'] d IH]; simpl; [by intros _ ?%elem_of_nil|].
  intros [Hk Hd]%NoDup_cons [[= -> ->]|Hin]%elem_of_cons.
  - by rewrite bool_decide_eq_true_2.
  - rewrite bool_decide_eq_false_2; [by apply IH|].
    intros ->. apply Hk. apply list_elem_of_fmap. by exists (k, v).
Qed.


(** Inserting the entries of a dictionary one by one into the empty one
    builds the same dictionary. *)
Lemma dict_rebuild d d0 :
  NoDup (d0 ++ d).*1 →
  foldl (λ acc kv, dict_set kv.1 kv.2 acc) d0 d = d0 ++ d.
Proof.
  revert d0. induction d as [|[k v] d IH]; intros d0 Hnd; simpl.
  - by rewrite app_nil_r.
  - rewrite dict_set_fresh.
    + rewrite IH; rewrite <- app_assoc; done.
    + apply dict_has_false. rewrite fmap_app in Hnd.
      apply NoDup_app in Hnd as (_ & Hdis & _). intros Hin.
      apply (Hdis k Hin). simpl. by left.
Qed.

End Dict.

(** ** Paths below a directory *)

Lemma has_prefix_app (pre s : string) : has_prefix pre (pre +:+ s) = true.
Proof.
  induction pre as [|a pre IH]; [by destruct s|].
  simpl. by rewrite bool_decide_eq_true_2.
Qed.

Lemma has_prefix_trans (a b c : string) :
  has_prefix a b = true → has_prefix b c = true → has_prefix a c = true.
Proof.
  revert b c. induction a as [|x a IH]; intros [|y b] [|z c]; simpl; try done.
  intros [Hxy Hab]%andb_true_iff [Hyz Hbc]%andb_true_iff.
  apply bool_decide_eq_true in Hxy, Hyz. subst.
  rewrite bool_decide_eq_true_2 by done. simpl. by eapply IH.
Qed.

Lemma has_prefix_take (d p : string) :
  take (length (chars d)) (chars p) = chars d → has_prefix d p = true.
Proof.
  revert p. induction d as [|a d IH]; intros [|b p]; simpl; try done.
  intros [= -> Ht]. rewrite bool_decide_eq_true_2 by done. by apply IH.
Qed.

Lemma child_of_Some (d p n : string) :
  child_of d p = Some n →
  path_join d n = p ∧ has_prefix d p = true ∧ n ≠ "" ∧ slash ∉ chars n.
Proof.
  unfold child_of.
  destruct (bool_decide (take _ (chars p) = chars d)) eqn:Ht; [|done].
  apply bool_decide_eq_true in Ht.
  set (n' := match drop _ _ with [] => [] | a :: r' => _ end).
  destruct (bool_decide (n' ≠ [] ∧ (slash ∉ n') ∧ path_join d (str n') = p))
    eqn:Hn; [|done].
  apply bool_decide_eq_true in Hn as (Hne & Hsl & Hj). intros [= <-].
  rewrite chars_str. repeat split; try done.
  - by apply has_prefix_take.
  - intros E. apply Hne. by rewrite <- (chars_str n'), E.
Qed.

Global Instance agree_on_equiv (P : string → Prop) : Equivalence (agree_on P).
Proof.
  split.
  - by intros w p _.
  - intros w a Hwa p Hp. symmetry. by apply Hwa.
  - intros w a b Hwa Hab p Hp. rewrite Hwa by done. by apply Hab.
Qed.

Lemma children_agree (d : string) (w a : world) :
  in_uploads d → agree_on in_uploads w a →
  children d (fs w) = children d (fs a).
Proof.
  intros Hd Hag. unfold children. apply set_eq. intros n.
  rewrite !elem_of_set_omap.
  split; intros (p & Hp & Hc); exists p; (split; [|done]);
    apply child_of_Some in Hc as (_ & Hpre & _);
    apply elem_of_dom; apply elem_of_dom in Hp;
    [rewrite <- Hag|rewrite Hag]; try done;
    by eapply has_prefix_trans.
Qed.

Lemma elem_of_children (d n : string) (m : gmap string node) :
  n ∈ children d m →
  is_Some (m !! path_join d n) ∧ has_prefix d (path_join d n) = true
  ∧ n ≠ "" ∧ slash ∉ chars n.
Proof.
  unfold children. rewrite elem_of_set_omap. intros (p & Hp & Hc).
  apply child_of_Some in Hc as (<- & Hpre & Hne & Hsl).
  by apply elem_of_dom in Hp.
Qed.

Lemma in_uploads_child (d n : string) (m : gmap string node) :
  in_uploads d → n ∈ children d m → in_uploads (path_join d n).
Proof.
  intros Hd (_ & Hpre & _)%elem_of_children.
  by eapply has_prefix_trans.
Qed.

Lemma isdir_agree (p : string) (w a : world) :
  in_uploads p → agree_on in_uploads w a → isdir p w = isdir p a.
Proof. intros Hp Hag. unfold isdir. by rewrite (Hag p Hp). Qed.

Lemma isfile_agree (p : string) (w a : world) :
  in_uploads p → agree_on in_uploads w a → isfile p w = isfile p a.
Proof. intros Hp Hag. unfold isfile. by rewrite (Hag p Hp). Qed.


Lemma listdir_agree (d : string) (w a : world) :
  in_uploads d → agree_on in_uploads w a → listdir d w = listdir d a.
Proof.
  intros Hd Hag. unfold listdir.
  by rewrite (isdir_agree d w a), (children_agree d w a).
Qed.

(** Thumbnails and the files of the store are not below the upload
    directory. *)
Lemma thumbnail_not_in_uploads (x : string) :
  ¬ in_uploads (path_join THUMBNAIL_DIR x).
Proof.
  unfold in_uploads, path_join. destruct (starts_with slash x) eqn:Hx.
  - destruct x as [|a x]; [done|]. simpl in Hx.
    apply bool_decide_eq_true in Hx as ->. done.
  - done.
Qed.

Lemma store_not_in_uploads (p : string) :
  p ∈ [METADATA_FILE; BACKUP_FILE; TEMP_FILE] → ¬ in_uploads p.
Proof. intros Hp. repeat (apply elem_of_cons in Hp as [->|Hp]; [done|]). by apply elem_of_nil in Hp. Qed.

(** ** Reconciliation as a fold over the upload tree *)

Lemma only_thumbnails_refl (w : world) : only_thumbnails w w.
Proof. done. Qed.

Lemma only_thumbnails_trans (w a b : world) :
  only_thumbnails w a → only_thumbnails a b → only_thumbnails w b.
Proof.
  intros (Hc1 & Hr1 & Hf1) (Hc2 & Hr2 & Hf2). repeat split; try congruence.
  intros p Hp. rewrite Hf2 by done. by apply Hf1.
Qed.

Lemma only_thumbnails_agree (w w' : world) :
  only_thumbnails w w' → agree_on in_uploads w w'.
Proof.
  intros (_ & _ & Hf) p Hp. symmetry. apply Hf. intros x ->.
  by apply (thumbnail_not_in_uploads x).
Qed.

Section Reconcile.
Context `{Platform}.

Lemma create_thumbnail_only (src dst : string) (w : world) :
  only_thumbnails w (create_thumbnail src (path_join THUMBNAIL_DIR dst) w).2.
Proof.
  unfold create_thumbnail.
  destruct (read_file src w); [|done].
  destruct (render_thumbnail a); [|done].
  destruct (write_file _ _ w) as [w'|] eqn:Hw; [|done].
  apply write_file_ok in Hw as ->. simpl. repeat split; try done.
  intros p Hp. simpl. rewrite lookup_insert_ne; [done|]. intros <-. by apply (Hp dst).
Qed.

Lemma get_file_size_agree (p : string) (w a : world) :
  fs w !! p = fs a !! p → get_file_size p w = get_file_size p a.
Proof. intros E. unfold get_file_size, getsize. by rewrite E. Qed.


(** One step of the inner loop adds the discovered record, unless its
    identifier is taken, and writes thumbnails only. *)
Lemma scan_file_step (w0 w : world) (all_files : mapping) (fo fn : string) :
  fs w0 !! entry_path fo fn = fs w !! entry_path fo fn →
  (∀ x, entry_path fo fn ≠ path_join THUMBNAIL_DIR x) →
  ∃ w', scan_file fo (path_join UPLOAD_BASE fo) (all_files, w) fn
        = (add_entry w0 all_files (fo, fn), w')
        ∧ only_thumbnails w w'.
Proof.
  intros E Hnt. unfold scan_file, add_entry, discovered, isfile, stat_mtime. simpl.
  fold (entry_path fo fn). rewrite E.
  destruct (fs w !! entry_path fo fn) as [[data t|]|] eqn:Hl;
    [|by eexists..].
  destruct (dict_has (file_id_of fo fn t) all_files); [by eexists|].
  match goal with |- context [get_file_size _ ?wt] => set (w' := wt) end.
  assert (only_thumbnails w w') as Hot.
  { unfold w'. destruct (is_image fn); [|done].
    destruct (path_exists _ w); [done|]. apply create_thumbnail_only. }
  exists w'. split; [|done].
  do 4 f_equal. apply get_file_size_agree.
  destruct Hot as (_ & _ & Hf). rewrite Hf by done. congruence.
Qed.

Lemma in_uploads_base : in_uploads UPLOAD_BASE.
Proof. done. Qed.

Lemma only_thumbnails_lookup (w0 w : world) (p : string) :
  only_thumbnails w0 w → in_uploads p → fs w0 !! p = fs w !! p.
Proof. intros Hot Hp. by apply (only_thumbnails_agree w0 w Hot). Qed.

Lemma in_uploads_not_thumbnail (p : string) :
  in_uploads p → ∀ x, p ≠ path_join THUMBNAIL_DIR x.
Proof. intros Hp x ->. by apply (thumbnail_not_in_uploads x). Qed.

Lemma scan_files_fold (w0 w : world) (all_files : mapping) (fo : string)
    (names : list string) :
  only_thumbnails w0 w →
  Forall (λ fn, in_uploads (entry_path fo fn)) names →
  ∃ w', foldl (scan_file fo (path_join UPLOAD_BASE fo)) (all_files, w) names
        = (foldl (add_entry w0) all_files ((λ fn, (fo, fn)) <$> names), w')
        ∧ only_thumbnails w0 w'.
Proof.
  revert all_files w. induction names as [|fn names IH]; intros A w Hot Hin.
  - by exists w.
  - apply Forall_cons in Hin as [Hfn Hin]. cbn [foldl fmap list_fmap].
    destruct (scan_file_step w0 w A fo fn) as (w1 & -> & Hot1).
    + by apply only_thumbnails_lookup.
    + by apply in_uploads_not_thumbnail.
    + apply IH; [|done]. by eapply only_thumbnails_trans.
Qed.

Lemma scan_folder_step (w0 w : world) (all_files : mapping) (fo : string) :
  only_thumbnails w0 w →
  fo ∈ children UPLOAD_BASE (fs w0) →
  ∃ w', scan_folder (Ok (all_files, w)) fo
        = Ok (foldl (add_entry w0) all_files (folder_entries w0 fo), w')
        ∧ only_thumbnails w0 w'.
Proof.
  intros Hot Hfo. unfold scan_folder, folder_entries.
  pose proof (in_uploads_child _ _ _ in_uploads_base Hfo) as Hdir.
  pose proof (only_thumbnails_agree _ _ Hot) as Hag.
  rewrite <- (isdir_agree _ w0 w Hdir Hag), <- (listdir_agree _ w0 w Hdir Hag).
  unfold listdir.
  destruct (isdir (path_join UPLOAD_BASE fo) w0); [|by exists w].
  destruct (scan_files_fold w0 w all_files fo
              (elements (children (path_join UPLOAD_BASE fo) (fs w0))))
    as (w' & -> & Hot'); [done| |by exists w'].
  apply Forall_forall. intros fn Hfn%elem_of_elements.
  by eapply in_uploads_child.
Qed.

Lemma scan_folders_fold (w0 w : world) (all_files : mapping)
    (folders : list string) :
  only_thumbnails w0 w →
  Forall (λ fo, fo ∈ children UPLOAD_BASE (fs w0)) folders →
  ∃ w', foldl scan_folder (Ok (all_files, w)) folders
        = Ok (foldl (add_entry w0) all_files (folders ≫= folder_entries w0), w')
        ∧ only_thumbnails w0 w'.
Proof.
  revert all_files w. induction folders as [|fo folders IH]; intros A w Hot Hin.
  - by exists w.
  - apply Forall_cons in Hin as [Hfo Hin]. cbn [foldl mbind list_bind].
    destruct (scan_folder_step w0 w A fo Hot Hfo) as (w1 & -> & Hot1).
    rewrite foldl_app. by apply IH.
Qed.

(** The second loop of [scan_all_uploads], as one fold over the entries of
    the upload tree taken at the start. *)
Lemma scan_new_fold (all_files : mapping) (w : world) :
  ∃ w', only_thumbnails w w'
    ∧ scan_new all_files w =
        if path_exists UPLOAD_BASE w then
          if isdir UPLOAD_BASE w
          then Ok (foldl (add_entry w) all_files (upload_entries w), w')
          else Error
        else Ok (all_files, w').
Proof.
  unfold scan_new, listdir.
  destruct (path_exists UPLOAD_BASE w); [|by exists w].
  destruct (isdir UPLOAD_BASE w); [|by exists w].
  destruct (scan_folders_fold w w all_files (elements (children UPLOAD_BASE (fs w))))
    as (w' & -> & Hot); [done| |by exists w'].
  apply Forall_forall. by intros fo Hfo%elem_of_elements.
Qed.

(** *** The fold *)

Lemma add_entry_cases (w : world) (all_files : mapping) (e : string * string) :
  add_entry w all_files e = all_files
  ∨ ∃ file_id data, discovered w e.1 e.2 = Some (file_id, data)
      ∧ dict_has file_id all_files = false
      ∧ add_entry w all_files e = all_files ++ [(file_id, data)].
Proof.
  unfold add_entry. destruct (discovered w e.1 e.2) as [[file_id data]|]; [|by left].
  destruct (dict_has file_id all_files) eqn:Hh; [by left|].
  right. exists file_id, data. by rewrite dict_set_fresh.
Qed.

(** The fold appends records of discovered entries and keeps the keys
    distinct. *)
Lemma add_entries_app (w : world) (all_files : mapping) (l : list (string * string)) :
  ∃ new, foldl (add_entry w) all_files l = all_files ++ new
    ∧ (NoDup all_files.*1 → NoDup (all_files ++ new).*1)
    ∧ Forall (λ kv, ∃ e, e ∈ l ∧ discovered w e.1 e.2 = Some kv) new.
Proof.
  revert all_files. induction l as [|e l IH]; intros A.
  - exists []. by rewrite app_nil_r.
  - cbn [foldl].
    destruct (add_entry_cases w A e) as [->|(file_id & data & Hd & Hh & ->)].
    + destruct (IH A) as (new & -> & Hnd & Hnew). exists new.
      repeat split; try done.
      eapply Forall_impl; [exact Hnew|]. intros kv (e' & ? & ?).
      exists e'. split; [by right|done].
    + destruct (IH (A ++ [(file_id, data)])) as (new & -> & Hnd & Hnew).
      exists ((file_id, data) :: new). rewrite <- app_assoc in *.
      repeat split; try done.
      * intros HA. apply Hnd. rewrite fmap_app. apply NoDup_app.
        repeat split; [done| |apply NoDup_singleton].
        intros x Hx ->%list_elem_of_singleton. by apply dict_has_false in Hh.
      * constructor; [exists e; split; [by left|done]|].
        eapply Forall_impl; [exact Hnew|]. intros kv (e' & ? & ?).
        exists e'. split; [by right|done].
Qed.








Lemma elem_of_upload_entries (w : world) (fo fn : string) :
  (fo, fn) ∈ upload_entries w ↔
    fo ∈ children UPLOAD_BASE (fs w)
    ∧ isdir (path_join UPLOAD_BASE fo) w = true
    ∧ fn ∈ children (path_join UPLOAD_BASE fo) (fs w).
Proof.
  unfold upload_entries. rewrite list_elem_of_bind. split.
  - intros (fo' & Hin & Hfo%elem_of_elements). unfold folder_entries in Hin.
    destruct (isdir (path_join UPLOAD_BASE fo') w) eqn:Hd;
      [|by apply elem_of_nil in Hin].
    apply list_elem_of_fmap in Hin as (fn' & [= -> ->] & Hfn%elem_of_elements).
    done.
  - intros (Hfo & Hd & Hfn). exists fo. split; [|by apply elem_of_elements].
    unfold folder_entries. rewrite Hd. apply list_elem_of_fmap.
    exists fn. split; [done|]. by apply elem_of_elements.
Qed.

Lemma upload_entries_in_uploads (w : world) (e : string * string) :
  e ∈ upload_entries w → in_uploads (entry_path e.1 e.2).
Proof.
  destruct e as [fo fn]. intros (Hfo & _ & Hfn)%elem_of_upload_entries.
  eapply in_uploads_child; [|done].
  by eapply in_uploads_child; [apply in_uploads_base|].
Qed.


(** *** The first loop *)

Lemma keep_existing_step (w : world) (acc : mapping) (kv : string * FileRecord)
    (metadata : mapping) :
  foldl (λ all_files '(file_id, data),
           match filepath data with
           | Some p => if path_exists p w then dict_set file_id data all_files
                       else all_files
           | None => all_files
           end) acc (kv :: metadata)
  = foldl (λ all_files '(file_id, data),
           match filepath data with
           | Some p => if path_exists p w then dict_set file_id data all_files
                       else all_files
           | None => all_files
           end) (if kept w kv then dict_set kv.1 kv.2 acc else acc) metadata.
Proof.
  destruct kv as [file_id data]. unfold kept. cbn [foldl fst snd].
  by destruct (filepath data).
Qed.

Lemma keep_existing_gen (w : world) (acc metadata : mapping) :
  let step := (λ all_files '(file_id, data),
           match filepath data with
           | Some p => if path_exists p w then dict_set file_id data all_files
                       else all_files
           | None => all_files
           end) in
  (NoDup acc.*1 → NoDup (foldl step acc metadata).*1)
  ∧ (∀ kv, kv ∈ foldl step acc metadata →
       kv ∈ acc ∨ kv ∈ metadata ∧ kept w kv = true)
  ∧ (NoDup (acc ++ metadata).*1 →
       foldl step acc metadata = acc ++ filter (λ kv, kept w kv = true) metadata).
Proof.
  intros step. revert acc.
  induction metadata as [|kv metadata IH]; intros acc.
  - simpl. repeat split; try done; [by left|]. intros _. by rewrite app_nil_r.
  - unfold step. rewrite keep_existing_step. fold step.
    destruct (IH (if kept w kv then dict_set kv.1 kv.2 acc else acc))
      as (IH1 & IH2 & IH3).
    split; [|split].
    + intros Hnd. apply IH1. destruct (kept w kv); [|done].
      by apply dict_set_NoDup.
    + intros kv' Hin. destruct (IH2 kv' Hin) as [Hacc|[Hm Hk]].
      * destruct (kept w kv) eqn:Hk; [|by left].
        apply elem_of_dict_set in Hacc as [->|?]; [|by left].
        right. split; [|done]. destruct kv. by left.
      * right. split; [by right|done].
    + intros Hnd. rewrite filter_cons.
      assert (dict_has kv.1 acc = false) as Hfresh.
      { apply dict_has_false. rewrite fmap_app in Hnd.
        apply NoDup_app in Hnd as (_ & Hdis & _). intros Hin.
        apply (Hdis _ Hin). by left. }
      destruct (kept w kv) eqn:Hk.
      * rewrite decide_True by done.
        rewrite IH3; rewrite dict_set_fresh by done; rewrite <- app_assoc;
          destruct kv; done.
      * rewrite decide_False by congruence.
        apply IH3. rewrite fmap_app in *.
        apply NoDup_app in Hnd as (Hn1 & Hn2 & Hn3).
        apply NoDup_cons in Hn3 as [_ Hn3].
        apply NoDup_app. repeat split; [done| |done].
        intros x Hx Hin. apply (Hn2 x Hx). by right.
Qed.

Lemma keep_existing_NoDup (w : world) (metadata : mapping) :
  NoDup (keep_existing w metadata).*1.
Proof. apply (keep_existing_gen w [] metadata). constructor. Qed.

Lemma elem_of_keep_existing (w : world) (metadata : mapping)
    (kv : string * FileRecord) :
  kv ∈ keep_existing w metadata → kv ∈ metadata ∧ kept w kv = true.
Proof.
  intros Hin. destruct (keep_existing_gen w [] metadata) as (_ & Hel & _).
  destruct (Hel kv Hin) as [?%elem_of_nil|?]; done.
Qed.

Lemma keep_existing_filter (w : world) (metadata : mapping) :
  NoDup metadata.*1 →
  keep_existing w metadata = filter (λ kv, kept w kv = true) metadata.
Proof. intros Hnd. by apply (keep_existing_gen w [] metadata). Qed.


(** *** The whole pass *)

Lemma scan_all_uploads_spec (w : world) :
  ∃ metadata w1 w2 saved w',
    load_metadata w = (Ok metadata, w1)
    ∧ only_thumbnails w1 w2
    ∧ save_metadata (reconciled w1 metadata) w2 = (Ok saved, w')
    ∧ scan_all_uploads w =
        if upload_base_ok w1 then (Ok (reconciled w1 metadata), w')
        else (Error, w1).
Proof.
  unfold scan_all_uploads.
  destruct (load_metadata_never_raises w) as [metadata Hm].
  destruct (load_metadata w) as [o w1]. simpl in Hm. subst o.
  destruct (scan_new_fold (keep_existing w1 metadata) w1) as (w2 & Hot & Hscan).
  destruct (save_metadata_spec (reconciled w1 metadata) w2)
    as (saved & w' & E & _).
  exists metadata, w1, w2, saved, w'. do 3 (split; [done|]).
  rewrite Hscan. unfold reconciled, upload_base_ok in *.
  destruct (path_exists UPLOAD_BASE w1); [destruct (isdir UPLOAD_BASE w1)|];
    simpl; by rewrite ?E.
Qed.

Lemma scan_all_uploads_inv (w w' : world) (all_files : mapping) :
  scan_all_uploads w = (Ok all_files, w') →
  ∃ metadata w1 w2 saved,
    load_metadata w = (Ok metadata, w1)
    ∧ only_thumbnails w1 w2
    ∧ save_metadata all_files w2 = (Ok saved, w')
    ∧ all_files = reconciled w1 metadata
    ∧ upload_base_ok w1 = true.
Proof.
  destruct (scan_all_uploads_spec w)
    as (metadata & w1 & w2 & saved & w0 & Hl & Hot & Hs & ->).
  destruct (upload_base_ok w1) eqn:Hok; [|done]. intros [= <- <-].
  by exists metadata, w1, w2, saved.
Qed.

Lemma discovered_kept (w : world) (e : string * string) (kv : string * FileRecord) :
  discovered w e.1 e.2 = Some kv → kept w kv = true.
Proof.
  unfold discovered, kept.
  destruct (fs w !! entry_path e.1 e.2) as [[data t|]|] eqn:Hl; try done.
  intros [= <-]. simpl. apply path_exists_true. by rewrite Hl.
Qed.

(** Every record a pass returns has a file, and is either a loaded record
    or a discovered one. *)
Lemma elem_of_reconciled (w1 : world) (metadata : mapping)
    (kv : string * FileRecord) :
  kv ∈ reconciled w1 metadata →
  kept w1 kv = true
  ∧ (kv ∈ metadata ∨ ∃ e, e ∈ upload_entries w1 ∧ discovered w1 e.1 e.2 = Some kv).
Proof.
  unfold reconciled. destruct (path_exists UPLOAD_BASE w1).
  - destruct (add_entries_app w1 (keep_existing w1 metadata) (upload_entries w1))
      as (new & -> & _ & Hnew).
    intros [Hin|Hin]%elem_of_app.
    + apply elem_of_keep_existing in Hin as [? ?]. split; [done|by left].
    + rewrite Forall_forall in Hnew. destruct (Hnew kv Hin) as (e & He & Hd).
      split; [by eapply discovered_kept|]. right. by exists e.
  - intros Hin. apply elem_of_keep_existing in Hin as [? ?]. split; [done|by left].
Qed.

Lemma reconciled_NoDup (w1 : world) (metadata : mapping) :
  NoDup (reconciled w1 metadata).*1.
Proof.
  unfold reconciled. destruct (path_exists UPLOAD_BASE w1).
  - destruct (add_entries_app w1 (keep_existing w1 metadata) (upload_entries w1))
      as (new & -> & Hnd & _).
    apply Hnd, keep_existing_NoDup.
  - apply keep_existing_NoDup.
Qed.

Lemma load_metadata_nonempty (w w1 : world) (metadata : mapping) :
  load_metadata w = (Ok metadata, w1) → metadata ≠ [] → w1 = w.
Proof.
  unfold load_metadata.
  destruct (path_exists METADATA_FILE w); [|by intros [= <- <-]].
  destruct (read_document w); try by intros [= <- <-].
  - destruct (os_rename _ _ w); by intros [= <- <-].
Qed.

(** C1.  A record of the loaded metadata whose [filepath] is missing, or
    names a path that does not exist when the pass starts, is not among the
    records the pass returns. *)
Theorem stale_record_pruned (w w' : world) (metadata all_files : mapping)
    (file_id : string) (data : FileRecord) :
  (load_metadata w).1 = Ok metadata →
  (file_id, data) ∈ metadata →
  (∀ p, filepath data = Some p → path_exists p w = false) →
  scan_all_uploads w = (Ok all_files, w') →
  (file_id, data) ∉ all_files.
Proof.
  intros Hload Hin Hstale Hscan Hout.
  apply scan_all_uploads_inv in Hscan
    as (metadata' & w1 & w2 & saved & Hl & _ & _ & -> & _).
  rewrite Hl in Hload. simpl in Hload. injection Hload as ->.
  assert (w1 = w) as ->.
  { eapply load_metadata_nonempty; [done|]. intros ->. by apply elem_of_nil in Hin. }
  apply elem_of_reconciled in Hout as [Hk _]. unfold kept in Hk. simpl in Hk.
  destruct (filepath data) as [p|]; [|done].
  by rewrite (Hstale p) in Hk.
Qed.

(** *** New identifiers *)

Lemma entry_name_no_lead (n : string) : entry_name n → starts_with slash n = false.
Proof.
  intros [Hne Hsl]. destruct n as [|a n]; [done|]. simpl.
  apply bool_decide_eq_false. intros ->. apply Hsl. by left.
Qed.

Lemma ends_with_app (c : ascii) (a b : string) :
  b ≠ "" → ends_with c (a +:+ b) = ends_with c b.
Proof.
  intros Hb. unfold ends_with. rewrite chars_app.
  destruct (chars b) as [|x l] eqn:E using rev_ind.
  - by apply chars_nil in E.
  - by rewrite app_assoc, !last_snoc.
Qed.

Lemma entry_name_no_trail (n : string) : entry_name n → ends_with slash n = false.
Proof.
  intros [Hne Hsl]. unfold ends_with.
  destruct (last (chars n)) as [a|] eqn:Hl; [|done].
  apply bool_decide_eq_false. intros ->. apply Hsl.
  apply last_Some in Hl as [l' ->]. apply elem_of_app. right. by left.
Qed.

Lemma path_join_entry (d n : string) :
  d ≠ "" → ends_with slash d = false → entry_name n →
  path_join d n = d +:+ "/" +:+ n.
Proof.
  intros Hd Hend Hn. unfold path_join.
  rewrite (entry_name_no_lead n Hn), Hend.
  by rewrite bool_decide_eq_false_2.
Qed.



Lemma folder_path_shape (fo : string) :
  entry_name fo →
  path_join UPLOAD_BASE fo ≠ "" ∧ ends_with slash (path_join UPLOAD_BASE fo) = false.
Proof.
  intros Hfo. rewrite path_join_entry by done. split; [done|].
  change (UPLOAD_BASE +:+ "/" +:+ fo) with (("uploads/") +:+ fo).
  rewrite ends_with_app by apply Hfo. by apply entry_name_no_trail.
Qed.



(** *** Two passes in a row *)

Lemma only_store_agree (w w' : world) :
  only_store w w' → agree_on in_uploads w w'.
Proof.
  intros Hos p Hp. symmetry. apply Hos. intros Hin.
  by apply (store_not_in_uploads p).
Qed.

Lemma load_metadata_only_store (w : world) : only_store w (load_metadata w).2.
Proof.
  unfold load_metadata.
  destruct (path_exists METADATA_FILE w); [|done].
  destruct (read_document w); try done.
  unfold os_rename. destruct (fs w !! METADATA_FILE) as [[data t|]|]; try done.
  destruct (isdir BACKUP_FILE w || negb (parent_ok BACKUP_FILE w)); [done|].
  intros p Hp. simpl.
  rewrite lookup_insert_ne, lookup_delete_ne; [done|..];
    intros <-; apply Hp; set_solver.
Qed.

Lemma save_metadata_only_store (data : mapping) (w : world) :
  only_store w (save_metadata data w).2.
Proof.
  destruct (save_metadata_spec data w) as (b & w' & -> & _ & _ & Hf & _).
  intros p Hp. apply Hf; intros ->; apply Hp; set_solver.
Qed.

Lemma read_document_agree (w a : world) :
  fs a !! METADATA_FILE = fs w !! METADATA_FILE →
  read_document a = read_document w.
Proof. intros E. unfold read_document, read_file. by rewrite E. Qed.













End Reconcile.

(** ** Duplicate names *)

Lemma take_drop_through (c : ascii) (l : list ascii) :
  c ∈ l → take_until c l ++ c :: drop_through c l = l.
Proof.
  induction l as [|a l IH]; [by intros ?%elem_of_nil|]. simpl.
  destruct (decide (a = c)) as [->|Hne].
  - by rewrite bool_decide_eq_true_2.
  - rewrite bool_decide_eq_false_2 by done.
    intros [?|Hin]%elem_of_cons; [congruence|]. simpl. by rewrite IH.
Qed.

Lemma before_after_last (c : ascii) (l : list ascii) :
  c ∈ l → before_last c l ++ c :: after_last c l = l.
Proof.
  intros Hc. unfold before_last, after_last.
  assert (c ∈ reverse l) as Hr by (by apply elem_of_reverse).
  pose proof (take_drop_through c (reverse l) Hr) as E.
  apply (f_equal reverse) in E.
  by rewrite reverse_app, reverse_cons, reverse_involutive, <- app_assoc in E.
Qed.

Lemma take_until_subseteq (c : ascii) (l : list ascii) : take_until c l ⊆ l.
Proof.
  induction l as [|a k IH]; [done|]. simpl. intros x Hx.
  destruct (bool_decide (a = c)); [by apply elem_of_nil in Hx|].
  apply elem_of_cons in Hx as [->|Hx]; [by left|]. right. by apply IH.
Qed.

Lemma after_last_subseteq (c : ascii) (l : list ascii) : after_last c l ⊆ l.
Proof.
  unfold after_last. intros x Hx. rewrite elem_of_reverse in Hx.
  apply take_until_subseteq in Hx. by rewrite elem_of_reverse in Hx.
Qed.

(** The two parts [splitext] returns make up the path. *)
Lemma splitext_app (p : string) : (splitext p).1 +:+ (splitext p).2 = p.
Proof.
  assert (p +:+ "" = p) as Hnil.
  { apply chars_inj. by rewrite chars_app, app_nil_r. }
  unfold splitext.
  destruct (bool_decide (dot ∈ after_last slash (chars p))) eqn:Hdot; [|done].
  destruct (forallb _ _); [done|]. cbn [fst snd].
  apply bool_decide_eq_true in Hdot. apply after_last_subseteq in Hdot.
  apply chars_inj. rewrite chars_app, !chars_str.
  by apply before_after_last.
Qed.

Lemma app_inv_r (a b c : string) : a +:+ c = b +:+ c → a = b.
Proof.
  intros E. apply chars_inj. apply (f_equal chars) in E.
  rewrite !chars_app in E. by apply app_inv_tail in E.
Qed.

Lemma numbered_inj (base : string) (j k : nat) :
  numbered base j = numbered base k → j = k.
Proof.
  unfold numbered. destruct (splitext base) as [stem ext].
  intros E. apply (inj (String.app stem)) in E.
  apply (inj (String.app "_")) in E. apply app_inv_r in E.
  by apply (inj pretty) in E.
Qed.

Lemma numbered_starts (base : string) (j k : nat) (c : ascii) :
  starts_with c (numbered base j) = starts_with c (numbered base k).
Proof.
  unfold numbered. destruct (splitext base) as [stem ext].
  by destruct stem.
Qed.

Lemma path_join_inj (d a b : string) :
  starts_with slash a = starts_with slash b →
  path_join d a = path_join d b → a = b.
Proof.
  unfold path_join. intros <-. destruct (starts_with slash a); [done|].
  destruct (bool_decide (d = "") || ends_with slash d).
  - apply (inj (String.app d)).
  - intros E. apply (inj (String.app d)) in E.
    by apply (inj (String.app "/")) in E.
Qed.

Lemma candidate_inj (d base : string) (j k : nat) :
  path_join d (numbered base j) = path_join d (numbered base k) → j = k.
Proof.
  intros E. apply path_join_inj in E; [by apply numbered_inj in E|].
  apply numbered_starts.
Qed.

(** The loop stops at once when the current path is free. *)
Lemma free_name_here (fuel : nat) (d base cur : string) (k : nat) (w : world) :
  path_exists (path_join d cur) w = false →
  free_name fuel d base cur k w = Some (cur, path_join d cur).
Proof. intros Hfree. destruct fuel; simpl; by rewrite Hfree. Qed.

(** With a free numbered name within reach of the fuel, the loop returns. *)
Lemma free_name_returns (fuel : nat) (d base cur : string) (k : nat) (w : world) :
  (∃ j, k ≤ j < k + fuel
        ∧ path_exists (path_join d (numbered base j)) w = false) →
  is_Some (free_name fuel d base cur k w).
Proof.
  revert cur k. induction fuel as [|fuel IH]; intros cur k (j & Hj & Hfree);
    [lia|].
  simpl. destruct (path_exists (path_join d cur) w); [|done].
  destruct (decide (j = k)) as [->|Hne].
  - by rewrite free_name_here.
  - apply IH. exists j. split; [lia|done].
Qed.

(** Among more numbered names than there are paths, one is free. *)
Lemma free_candidate (d base : string) (w : world) :
  ∃ j, 1 ≤ j < 1 + S (size (fs w))
       ∧ path_exists (path_join d (numbered base j)) w = false.
Proof.
  set (cand := λ j, path_join d (numbered base j)).
  set (l := seq 1 (S (size (fs w)))).
  destruct (decide (Forall (λ j, path_exists (cand j) w = true) l))
    as [Hall|Hnot].
  - exfalso.
    assert (NoDup (cand <$> l)) as Hnd.
    { apply NoDup_fmap_2_strong; [|apply NoDup_seq].
      intros j k _ _. apply candidate_inj. }
    assert (list_to_set (cand <$> l) ⊆ dom (fs w)) as Hsub.
    { intros q. rewrite elem_of_list_to_set, list_elem_of_fmap.
      intros (j & -> & Hj). rewrite Forall_forall in Hall.
      apply elem_of_dom, path_exists_true. by apply Hall. }
    apply subseteq_size in Hsub.
    rewrite size_list_to_set, length_fmap, size_dom in Hsub by done.
    unfold l in Hsub. rewrite length_seq in Hsub. lia.
  - apply not_Forall_Exists in Hnot; [|intros x; apply _].
    apply Exists_exists in Hnot as (j & Hj & Hfree).
    exists j. unfold l in Hj. rewrite elem_of_seq in Hj. split; [lia|].
    unfold compose, cand in Hfree.
    by destruct (path_exists (path_join d (numbered base j)) w).
Qed.

Lemma free_name_enough (d base : string) (w : world) :
  is_Some (free_name (enough_fuel w) d base base 1 w).
Proof. apply free_name_returns, free_candidate. Qed.

(** What the loop returns: a free path, under the current name or under
    the numbered name of the least counter whose path is free. *)
Lemma free_name_spec (fuel : nat) (d base cur name path : string) (k : nat)
    (w : world) :
  free_name fuel d base cur k w = Some (name, path) →
  path = path_join d name
  ∧ path_exists path w = false
  ∧ (name = cur
     ∨ path_exists (path_join d cur) w = true
       ∧ ∃ j, k ≤ j ∧ name = numbered base j
           ∧ ∀ i, k ≤ i < j →
               path_exists (path_join d (numbered base i)) w = true).
Proof.
  revert cur k. induction fuel as [|fuel IH]; intros cur k; simpl.
  - destruct (path_exists (path_join d cur) w) eqn:Hex; [done|].
    intros [= <- <-]. split; [done|]. split; [done|]. by left.
  - destruct (path_exists (path_join d cur) w) eqn:Hex.
    + intros Hrec. apply IH in Hrec as (-> & Hfree & Hname).
      split; [done|]. split; [done|]. right. split; [done|].
      destruct Hname as [->|(Hk & j & Hj & -> & Hbelow)].
      * exists k. split; [lia|]. split; [done|]. intros i Hi. lia.
      * exists j. split; [lia|]. split; [done|]. intros i Hi.
        destruct (decide (i = k)) as [->|Hne]; [done|]. apply Hbelow. lia.
    + intros [= <- <-]. split; [done|]. split; [done|]. by left.
Qed.

(** ** What an upload changes *)

Lemma ancestors_go_length (seen rest : list ascii) (q : string) :
  q ∈ ancestors_go seen rest →
  String.length q ≤ length seen + length rest.
Proof.
  revert seen. induction rest as [|a rest IH]; intros seen; simpl.
  - intros ->%list_elem_of_singleton.
    rewrite <- chars_length, chars_str, length_reverse. lia.
  - intros [Hin|Hin]%elem_of_app.
    + destruct (bool_decide (a = slash) && bool_decide (seen ≠ []));
        [|by apply elem_of_nil in Hin].
      apply list_elem_of_singleton in Hin as ->.
      rewrite <- chars_length, chars_str, length_reverse. lia.
    + apply IH in Hin. simpl in Hin. lia.
Qed.

Lemma ancestors_length (p q : string) :
  q ∈ ancestors p → String.length q ≤ String.length p.
Proof.
  intros Hin%ancestors_go_length. simpl in Hin. by rewrite chars_length in Hin.
Qed.

Lemma app_length (a b : string) :
  String.length (a +:+ b) = String.length a + String.length b.
Proof. by rewrite <- !chars_length, chars_app, length_app. Qed.

(** [os.makedirs] turns missing ancestors into directories and changes
    nothing else. *)
Lemma makedirs_fold (l : list string) (w w1 : world) :
  foldl (λ st d,
           match st with
           | Error => Error
           | Ok w' =>
               match fs w' !! d with
               | Some Dir => Ok w'
               | Some (File _ _) => Error
               | None => Ok (set_fs w' (<[d := Dir]> (fs w')))
               end
           end) (Ok w) l = Ok w1 →
  clock w1 = clock w ∧ resolver w1 = resolver w
  ∧ ∀ q, is_Some (fs w !! q) ∨ q ∉ l → fs w1 !! q = fs w !! q.
Proof.
  revert w. induction l as [|d l IH]; intros w; simpl.
  - by intros [= <-].
  - destruct (fs w !! d) as [[data t|]|] eqn:Hd.
    + intros Hbad. exfalso. clear -Hbad.
      induction l as [|x l IHl]; [done|]. by apply IHl.
    + intros Hrec. destruct (IH w Hrec) as (Hc & Hr & Hf).
      repeat split; try done. intros q [Hq|Hq]; apply Hf; [by left|].
      destruct (decide (q ∈ l)) as [Hin|Hout]; [|by right].
      left. assert (q ≠ d ∨ q = d) as [Hne| ->] by (destruct (decide (q = d)); eauto).
      * exfalso. apply Hq. by right.
      * by rewrite Hd.
    + intros Hrec. destruct (IH _ Hrec) as (Hc & Hr & Hf).
      repeat split; try done. intros q Hq.
      assert (q ≠ d) as Hne.
      { intros ->. destruct Hq as [[? Hq]|Hq]; [congruence|]. apply Hq. by left. }
      rewrite Hf; simpl.
      * by rewrite lookup_insert_ne.
      * destruct Hq as [Hq|Hq].
        -- left. by rewrite lookup_insert_ne.
        -- right. intros Hin. apply Hq. by right.
Qed.

Lemma makedirs_spec (p : string) (w w1 : world) :
  makedirs p w = Ok w1 →
  clock w1 = clock w ∧ resolver w1 = resolver w
  ∧ ∀ q, is_Some (fs w !! q) ∨ q ∉ ancestors p → fs w1 !! q = fs w !! q.
Proof. apply makedirs_fold. Qed.

Section UploadFrame.
Context `{Platform}.

Lemma load_metadata_clock (w : world) :
  clock (load_metadata w).2 = clock w ∧ resolver (load_metadata w).2 = resolver w.
Proof.
  unfold load_metadata.
  destruct (path_exists METADATA_FILE w); [|done].
  destruct (read_document w); try done.
  unfold os_rename. destruct (fs w !! METADATA_FILE) as [[data t|]|]; try done.
  by destruct (isdir BACKUP_FILE w || negb (parent_ok BACKUP_FILE w)).
Qed.

(** After the file is written, an upload changes thumbnails and the files
    of the store only. *)
Lemma register_upload_agree (fo fi fp de ho ip : string) (w : world) :
  agree_on in_uploads w (register_upload fo fi fp de ho ip w).2
  ∧ resolver (register_upload fo fi fp de ho ip w).2 = resolver w.
Proof.
  unfold register_upload.
  set (w1 := if is_image fi then _ else w).
  assert (only_thumbnails w w1) as Hot.
  { unfold w1. destruct (is_image fi); [apply create_thumbnail_only|done]. }
  pose proof (load_metadata_only_store w1) as Hload.
  pose proof (load_metadata_clock w1) as [_ Hres].
  destruct (load_metadata_never_raises w1) as [m Hm].
  destruct (load_metadata w1) as [o w2]. simpl in *. subst o.
  match goal with |- context [save_metadata ?d ?wa] =>
    pose proof (save_metadata_only_store d wa) as Hsave;
    destruct (save_metadata_spec d wa) as (b & w3 & E & _ & Hr3 & _) end.
  rewrite E in *. simpl in *. split.
  - etrans; [by apply only_thumbnails_agree|].
    etrans; by apply only_store_agree.
  - destruct Hot as (_ & Hr1 & _). congruence.
Qed.

End UploadFrame.

Lemma path_join_plain (d n : string) :
  d ≠ "" → ends_with slash d = false → starts_with slash n = false →
  path_join d n = d +:+ "/" +:+ n.
Proof.
  intros Hd Hend Hn. unfold path_join. rewrite Hn, Hend.
  by rewrite bool_decide_eq_false_2.
Qed.

Lemma numbered_no_lead (base : string) (j : nat) :
  entry_name base → starts_with slash (numbered base j) = false.
Proof.
  intros Hbase. pose proof (splitext_app base) as Happ.
  unfold numbered. destruct (splitext base) as [stem ext]. simpl in Happ.
  destruct stem as [|a stem]; [done|]. subst base.
  apply (entry_name_no_lead _ Hbase).
Qed.

(** The path a file is stored at, for a folder [fo] and a name without a
    leading separator. *)
Lemma stored_path (fo name : string) :
  entry_name fo → starts_with slash name = false →
  path_join (path_join UPLOAD_BASE fo) name
  = path_join UPLOAD_BASE fo +:+ "/" +:+ name.
Proof.
  intros Hfo Hname. destruct (folder_path_shape fo Hfo) as [Hne Hend].
  by apply path_join_plain.
Qed.

Lemma stored_path_in_uploads (fo name : string) :
  entry_name fo → starts_with slash name = false →
  in_uploads (path_join (path_join UPLOAD_BASE fo) name).
Proof.
  intros Hfo Hname. rewrite stored_path by done.
  rewrite path_join_entry by done. unfold in_uploads.
  change (has_prefix UPLOAD_BASE (UPLOAD_BASE +:+ ("/" +:+ fo) +:+ "/" +:+ name) = true).
  assert (∀ a b c : string, (a +:+ b) +:+ c = a +:+ (b +:+ c)) as Hassoc.
  { intros a b c. apply chars_inj. by rewrite !chars_app, app_assoc. }
  rewrite Hassoc. apply has_prefix_app.
Qed.

Lemma stored_path_not_ancestor (fo name : string) :
  entry_name fo → starts_with slash name = false →
  path_join (path_join UPLOAD_BASE fo) name ∉ ancestors (path_join UPLOAD_BASE fo).
Proof.
  intros Hfo Hname Hin%ancestors_length.
  rewrite stored_path, !app_length in Hin by done. simpl in Hin. lia.
Qed.

Section UploadSequence.
Context `{Platform}.

(** The duplicate loop of [upload_file] never runs out of fuel. *)
Lemma upload_file_returns (req : request) (w : world) :
  is_Some (upload_file req w).
Proof.
  unfold upload_file.
  destruct (req_file req) as [[file_name bytes]|]; [|done].
  destruct (bool_decide (file_name = "")); [done|].
  destruct (bool_decide (strip (default "" (req_foldername req)) = ""));
    [done|].
  destruct (get_system_info w) as [hostname ip].
  destruct (sanitize_foldername _) as [fo|]; [|done].
  destruct (sanitize_filename file_name) as [base|]; [|done].
  destruct (makedirs _ w) as [w1|]; [|done].
  destruct (free_name_enough (path_join UPLOAD_BASE fo) base w1)
    as [[name path] ->].
  by destruct (write_file path bytes w1).
Qed.

Lemma upload_many_returns (n : nat) (req : request) (w : world) :
  is_Some (upload_many n req w).
Proof.
  revert w. induction n as [|n IH]; intros w; simpl; [done|].
  destruct (upload_file_returns req w) as [[r w1] ->]. simpl.
  by destruct (IH w1) as [[rs w2] ->].
Qed.

Lemma upload_many_S_inv (n : nat) (req : request) (w w' : world)
    (rs : list response) :
  upload_many (S n) req w = Some (rs, w') →
  ∃ r w1 rs', rs = r :: rs'
    ∧ upload_file req w = Some (r, w1)
    ∧ upload_many n req w1 = Some (rs', w').
Proof.
  simpl. destruct (upload_file req w) as [[r w1]|] eqn:E1; [|done]. simpl.
  destruct (upload_many n req w1) as [[rs' w2]|] eqn:E2; [|done]. simpl.
  intros [= <- <-]. by exists r, w1, rs'.
Qed.

End UploadSequence.

Section Duplicates.
Context `{Platform}.
Hypothesis isalnum_slash : isalnum slash = false.

Lemma sanitized_folder_entry (s fo : string) :
  sanitize_foldername s = Some fo → entry_name fo.
Proof.
  intros (Hne & _ & Hall & _)%sanitize_foldername_Some. split; [done|].
  intros Hin. rewrite Forall_forall in Hall. apply Hall in Hin.
  unfold foldername_char in Hin. by rewrite isalnum_slash in Hin.
Qed.

Lemma sanitized_file_entry (s fi : string) :
  sanitize_filename s = Some fi → entry_name fi.
Proof.
  intros (_ & Hne & Hall & _)%sanitize_filename_Some. split; [done|].
  intros Hin. rewrite Forall_forall in Hall. apply Hall in Hin.
  unfold filename_char in Hin. by rewrite isalnum_slash in Hin.
Qed.

Lemma variant_no_lead (base name : string) :
  entry_name base → variant_of base name → starts_with slash name = false.
Proof.
  intros Hbase [->|(j & _ & ->)]; [by apply entry_name_no_lead|].
  by apply numbered_no_lead.
Qed.

(** A successful upload: the name it chose, the path it wrote, and the
    paths below the upload directory it left alone. *)
Lemma upload_ok_frame (req : request) (w w' : world) (b : body) :
  upload_file req w = Some ((200, b), w') →
  ∃ file_name bytes fo base name ip size,
    req_file req = Some (file_name, bytes)
    ∧ sanitize_foldername (strip (default "" (req_foldername req))) = Some fo
    ∧ sanitize_filename file_name = Some base
    ∧ b = UploadBody fo name (path_join (path_join UPLOAD_BASE fo) name)
            (reported_host w) ip size
    ∧ resolver w' = resolver w
    ∧ fs w !! path_join (path_join UPLOAD_BASE fo) name = None
    ∧ is_Some (fs w' !! path_join (path_join UPLOAD_BASE fo) name)
    ∧ (name = base
       ∨ is_Some (fs w !! path_join (path_join UPLOAD_BASE fo) base)
         ∧ ∃ j, 1 ≤ j ∧ name = numbered base j
             ∧ ∀ i, 1 ≤ i < j →
                 is_Some (fs w !! path_join (path_join UPLOAD_BASE fo)
                                    (numbered base i)))
    ∧ (∀ q, in_uploads q →
            q ≠ path_join (path_join UPLOAD_BASE fo) name →
            is_Some (fs w !! q) ∨ q ∉ ancestors (path_join UPLOAD_BASE fo) →
            fs w' !! q = fs w !! q).
Proof.
  intros Hup.
  apply upload_ok_inv in Hup
    as (file_name & bytes & fo & base & w1 & name & path & w2
        & Hfile & Hfo & Hbase & Hmk & Hfree & Hwr & Hreg).
  pose proof (sanitized_folder_entry _ _ Hfo) as Efo.
  pose proof (sanitized_file_entry _ _ Hbase) as Ebase.
  apply free_name_spec in Hfree as (-> & Hfresh & Hname).
  set (d := path_join UPLOAD_BASE fo) in *.
  destruct (makedirs_spec d w w1 Hmk) as (_ & Hr1 & Hmkf).
  assert (variant_of base name) as Hvar.
  { destruct Hname as [->|(_ & j & Hj & -> & _)]; [by left|right; eauto]. }
  pose proof (variant_no_lead base name Ebase Hvar) as Hlead.
  assert (∀ n, starts_with slash n = false → fs w1 !! path_join d n = fs w !! path_join d n)
    as Hcand.
  { intros n Hn. apply Hmkf. right. by apply stored_path_not_ancestor. }
  apply write_file_ok in Hwr as ->.
  pose proof (register_upload_agree fo name (path_join d name)
                (strip (default "" (req_description req)))
                (get_system_info w).1 (get_system_info w).2
                (set_fs w1 (<[path_join d name := File bytes (clock w1)]> (fs w1))))
    as [Hag Hres].
  pose proof (register_upload_inv _ _ _ _ _ _ _ _ _ Hreg)
    as (_ & _ & _ & [= ->] & _).
  rewrite Hreg in Hag, Hres. simpl in Hag, Hres.
  exists file_name, bytes, fo, base, name, (get_system_info w).2,
    (get_file_size (path_join d name) w').
  rewrite get_system_info_host. do 4 (split; [done|]).
  split; [congruence|].
  apply path_exists_false in Hfresh. rewrite Hcand in Hfresh by done.
  split; [done|]. split; [|split].
  - rewrite <- Hag by (by apply stored_path_in_uploads).
    simpl. by rewrite lookup_insert_eq.
  - destruct Hname as [->|(Hex & j & Hj & -> & Hbelow)]; [by left|].
    right. split.
    + apply path_exists_true in Hex.
      rewrite Hcand in Hex; [done|by apply entry_name_no_lead].
    + exists j. repeat split; try done. intros i Hi.
      specialize (Hbelow i Hi). apply path_exists_true in Hbelow.
      rewrite Hcand in Hbelow; [done|by apply numbered_no_lead].
  - intros q Hq Hne Hkeep. rewrite <- Hag by done. simpl.
    rewrite lookup_insert_ne by done. by apply Hmkf.
Qed.

(** Paths below the upload directory stay once they are there. *)
Lemma upload_keeps_paths (req : request) (w w' : world) (b : body) (q : string) :
  upload_file req w = Some ((200, b), w') →
  in_uploads q → is_Some (fs w !! q) → is_Some (fs w' !! q).
Proof.
  intros Hup Hq Hex.
  apply upload_ok_frame in Hup
    as (file_name & bytes & fo & base & name & ip & size
        & _ & _ & _ & _ & _ & _ & Hnew & _ & Hframe).
  destruct (decide (q = path_join (path_join UPLOAD_BASE fo) name)) as [->|Hne];
    [done|].
  rewrite Hframe; [done..|by left].
Qed.

Section Sequence.
Variables (req : request) (file_name bytes fo base : string).
Hypothesis req_has_file : req_file req = Some (file_name, bytes).
Hypothesis folder_ok :
  sanitize_foldername (strip (default "" (req_foldername req))) = Some fo.
Hypothesis file_ok : sanitize_filename file_name = Some base.

Lemma upload_ok_frame_here (w w' : world) (b : body) :
  upload_file req w = Some ((200, b), w') →
  ∃ name, stored_name (200, b) = Some name
    ∧ fs w !! stored_at fo name = None
    ∧ is_Some (fs w' !! stored_at fo name)
    ∧ (name = base
       ∨ is_Some (fs w !! stored_at fo base)
         ∧ ∃ j, 1 ≤ j ∧ name = numbered base j
             ∧ ∀ i, 1 ≤ i < j → is_Some (fs w !! stored_at fo (numbered base i)))
    ∧ (∀ q, in_uploads q → q ≠ stored_at fo name →
            is_Some (fs w !! q) ∨ q ∉ ancestors (path_join UPLOAD_BASE fo) →
            fs w' !! q = fs w !! q).
Proof.
  intros Hup.
  apply upload_ok_frame in Hup
    as (file_name' & bytes' & fo' & base' & name & ip & size
        & Hf & Hfo & Hbase & -> & _ & Hfresh & Hnew & Hname & Hframe).
  rewrite req_has_file in Hf. injection Hf as <- <-.
  rewrite folder_ok in Hfo. injection Hfo as <-.
  rewrite file_ok in Hbase. injection Hbase as <-.
  by exists name.
Qed.

Lemma variant_in_uploads (name : string) :
  variant_of base name → in_uploads (stored_at fo name).
Proof.
  intros Hvar. apply stored_path_in_uploads.
  - by eapply sanitized_folder_entry.
  - eapply variant_no_lead; [|done]. by eapply sanitized_file_entry.
Qed.

(** The names of [n] successful uploads are pairwise different variants
    of the sanitised name, each stored at a path that was free. *)
Lemma upload_many_distinct (n : nat) (w w' : world) (rs : list response) :
  upload_many n req w = Some (rs, w') →
  Forall (λ r, r.1 = 200) rs →
  length (stored_names rs) = n
  ∧ NoDup (stored_names rs)
  ∧ Forall (λ name, variant_of base name
                    ∧ fs w !! stored_at fo name = None
                    ∧ is_Some (fs w' !! stored_at fo name)) (stored_names rs)
  ∧ ∀ q, in_uploads q → is_Some (fs w !! q) → is_Some (fs w' !! q).
Proof.
  revert w rs. induction n as [|n IH]; intros w rs Hmany Hok.
  - simpl in Hmany. injection Hmany as <- <-.
    repeat split; try done; constructor.
  - apply upload_many_S_inv in Hmany as (r & w1 & rs' & -> & Hup & Hrest).
    apply Forall_cons in Hok as [Hr Hok]. destruct r as [st b].
    simpl in Hr. subst st.
    destruct (IH w1 rs' Hrest Hok) as (Hlen & Hnd & Hall & Hkeep).
    pose proof (upload_ok_frame_here w w1 b Hup)
      as (name & Hsn & Hfresh & Hnew & Hname & Hframe).
    assert (variant_of base name) as Hvar.
    { destruct Hname as [->|(_ & j & Hj & -> & _)]; [by left|right; eauto]. }
    unfold stored_names. cbn [omap list_omap]. rewrite Hsn.
    fold (stored_names rs').
    split; [simpl; by rewrite Hlen|]. split; [|split].
    + constructor; [|done]. intros Hin. rewrite Forall_forall in Hall.
      destruct (Hall name Hin) as (_ & Hnone & _).
      rewrite Hnone in Hnew. by destruct Hnew.
    + constructor.
      * split; [done|]. split; [done|].
        apply Hkeep; [by apply variant_in_uploads|done].
      * eapply Forall_impl; [exact Hall|]. intros x (Hx & Hnone & Hsome).
        split; [done|]. split; [|done].
        destruct (fs w !! stored_at fo x) eqn:Hl; [|done]. exfalso.
        assert (is_Some (fs w1 !! stored_at fo x)) as [? Hs]; [|congruence].
        eapply upload_keeps_paths; [done|by apply variant_in_uploads|].
        by rewrite Hl.
    + intros q Hq Hex. apply Hkeep; [done|]. by eapply upload_keeps_paths.
Qed.

(** When the sanitised name is taken, the numbered names below [k] are
    taken and the next [m] are free, [m] successful uploads take the
    numbered names from [k] on, in order. *)
Lemma upload_many_numbered (m k : nat) (w w' : world) (rs : list response) :
  1 ≤ k →
  is_Some (fs w !! stored_at fo base) →
  (∀ i, 1 ≤ i < k → is_Some (fs w !! stored_at fo (numbered base i))) →
  (∀ i, k ≤ i < k + m → fs w !! stored_at fo (numbered base i) = None) →
  upload_many m req w = Some (rs, w') →
  Forall (λ r, r.1 = 200) rs →
  stored_names rs = numbered base <$> seq k m.
Proof.
  revert k w rs. induction m as [|m IH]; intros k w rs Hk Hbase Hbelow Hfree Hmany Hok.
  - simpl in Hmany. by injection Hmany as <- <-.
  - apply upload_many_S_inv in Hmany as (r & w1 & rs' & -> & Hup & Hrest).
    apply Forall_cons in Hok as [Hr Hok]. destruct r as [st b].
    simpl in Hr. subst st.
    pose proof (upload_ok_frame_here w w1 b Hup)
      as (name & Hsn & Hfresh & Hnew & Hname & Hframe).
    assert (name = numbered base k) as ->.
    { destruct Hname as [->|(_ & j & Hj & -> & Htaken)].
      - rewrite Hfresh in Hbase. by destruct Hbase.
      - f_equal. destruct (decide (j < k)) as [Hlt|Hge].
        + specialize (Hbelow j (conj Hj Hlt)). rewrite Hfresh in Hbelow.
          by destruct Hbelow.
        + destruct (decide (j = k)) as [|Hne]; [done|]. exfalso.
          assert (1 ≤ k < j) as Hkj by lia. specialize (Htaken k Hkj).
          rewrite Hfree in Htaken by lia. by destruct Htaken. }
    pose proof (sanitized_folder_entry _ _ folder_ok) as Efo.
    pose proof (sanitized_file_entry _ _ file_ok) as Ebase.
    unfold stored_names. cbn [omap list_omap]. rewrite Hsn.
    fold (stored_names rs'). cbn [seq fmap list_fmap]. f_equal.
    apply (IH (S k) w1); try done; [lia|..].
    + eapply upload_keeps_paths; [done| |done].
      apply variant_in_uploads. by left.
    + intros i Hi. destruct (decide (i = k)) as [->|Hne]; [done|].
      eapply upload_keeps_paths; [done| |apply Hbelow; lia].
      apply variant_in_uploads. right. exists i. split; [lia|done].
    + intros i Hi. rewrite Hframe.
      * apply Hfree. lia.
      * apply variant_in_uploads. right. exists i. split; [lia|done].
      * intros E. apply candidate_inj in E. lia.
      * right. apply stored_path_not_ancestor; [done|].
        by apply numbered_no_lead.
Qed.

(** From a folder that holds none of the candidate names, [n] successful
    uploads store the sanitised name and then its numbered variants. *)
Lemma upload_many_pattern (n : nat) (w w' : world) (rs : list response) :
  (∀ name, name ∈ candidates base n → fs w !! stored_at fo name = None) →
  upload_many n req w = Some (rs, w') →
  Forall (λ r, r.1 = 200) rs →
  stored_names rs = candidates base n.
Proof.
  destruct n as [|n]; intros Hfree Hmany Hok.
  - simpl in Hmany. by injection Hmany as <- <-.
  - apply upload_many_S_inv in Hmany as (r & w1 & rs' & -> & Hup & Hrest).
    apply Forall_cons in Hok as [Hr Hok]. destruct r as [st b].
    simpl in Hr. subst st.
    pose proof (upload_ok_frame_here w w1 b Hup)
      as (name & Hsn & Hfresh & Hnew & Hname & Hframe).
    assert (name = base) as ->.
    { destruct Hname as [->|(Hex & _)]; [done|].
      rewrite (Hfree base) in Hex by (by left). by destruct Hex. }
    pose proof (sanitized_folder_entry _ _ folder_ok) as Efo.
    pose proof (sanitized_file_entry _ _ file_ok) as Ebase.
    unfold stored_names. cbn [omap list_omap]. rewrite Hsn.
    fold (stored_names rs'). simpl. f_equal.
    apply (upload_many_numbered n 1 w1 w'); try done.
    + intros i Hi. lia.
    + intros i Hi.
      assert (stored_at fo (numbered base i) ≠ stored_at fo base) as Hne.
      { unfold stored_at.
        rewrite (stored_path fo (numbered base i))
          by (done || by apply numbered_no_lead).
        rewrite (stored_path fo base)
          by (done || by apply entry_name_no_lead).
        intros E. apply (inj (String.app _)) in E.
        apply (inj (String.app "/")) in E.
        apply (f_equal String.length) in E.
        unfold numbered in E. pose proof (splitext_app base) as Happ.
        destruct (splitext base) as [stem ext]. simpl in Happ.
        rewrite <- Happ in E. rewrite !app_length in E. simpl in E. lia. }
      rewrite Hframe.
      * apply Hfree. right. apply list_elem_of_fmap. exists i.
        split; [done|]. apply elem_of_seq. lia.
      * apply variant_in_uploads. right. exists i. split; [lia|done].
      * done.
      * right. apply stored_path_not_ancestor; [done|].
        by apply numbered_no_lead.
Qed.

End Sequence.

(** C5.  Given that [isalnum] is false on the separator: any number of
    uploads of the same request returns.  When all [n]
    of them succeed, the [n] stored names are pairwise different; each is
    the sanitised name or a numbered variant of it ([_k] before the
    extension) and was stored at a path that did not exist; and from a
    folder that holds none of the candidate names the stored names are the
    sanitised name followed by the variants numbered 1, 2, ... in order.
    A single successful upload stores the file under the sanitised name
    when that path is free, and otherwise under the variant with the least
    counter from 1 on whose path is free. *)
Theorem duplicate_uploads_distinct (n : nat) (req : request) (w : world) :
  is_Some (upload_many n req w)
  ∧ (∀ rs w', upload_many n req w = Some (rs, w') →
       Forall (λ r, r.1 = 200) rs →
       length (stored_names rs) = n
       ∧ NoDup (stored_names rs)
       ∧ ∀ file_name bytes fo base,
           req_file req = Some (file_name, bytes) →
           sanitize_foldername (strip (default "" (req_foldername req))) = Some fo →
           sanitize_filename file_name = Some base →
           Forall (λ name, variant_of base name
                           ∧ fs w !! stored_at fo name = None) (stored_names rs)
           ∧ ((∀ name, name ∈ candidates base n →
                 fs w !! stored_at fo name = None) →
              stored_names rs = candidates base n))
  ∧ (∀ w0 w1 b file_name bytes fo base,
       req_file req = Some (file_name, bytes) →
       sanitize_foldername (strip (default "" (req_foldername req))) = Some fo →
       sanitize_filename file_name = Some base →
       upload_file req w0 = Some ((200, b), w1) →
       ∃ name, stored_name (200, b) = Some name
         ∧ fs w0 !! stored_at fo name = None
         ∧ is_Some (fs w1 !! stored_at fo name)
         ∧ (name = base
            ∨ is_Some (fs w0 !! stored_at fo base)
              ∧ ∃ j, 1 ≤ j ∧ name = numbered base j
                  ∧ ∀ i, 1 ≤ i < j →
                      is_Some (fs w0 !! stored_at fo (numbered base i)))).
Proof.
  split; [apply upload_many_returns|]. split.
  - intros rs w' Hmany Hok.
    assert (n = 0 ∨ ∃ file_name bytes fo base,
              req_file req = Some (file_name, bytes)
              ∧ sanitize_foldername (strip (default "" (req_foldername req))) = Some fo
              ∧ sanitize_filename file_name = Some base)
      as [->|(file_name & bytes & fo & base & Hf & Hfo & Hbase)].
    { destruct n as [|n]; [by left|]. right.
      pose proof Hmany as Hm.
      apply upload_many_S_inv in Hm as (r & w1 & rs' & -> & Hup & _).
      apply Forall_cons in Hok as [Hr _]. destruct r as [st b].
      simpl in Hr. subst st.
      apply upload_ok_frame in Hup
        as (file_name & bytes & fo & base & _ & _ & _ & ? & ? & ? & _).
      by exists file_name, bytes, fo, base. }
    + simpl in Hmany. injection Hmany as <- <-.
      split; [done|]. split; [constructor|].
      intros. split; [constructor|done].
    + destruct (upload_many_distinct req file_name bytes fo base Hf Hfo Hbase
                  n w w' rs Hmany Hok) as (Hlen & Hnd & Hall & _).
      split; [done|]. split; [done|].
      intros file_name' bytes' fo' base' Hf' Hfo' Hbase'.
      rewrite Hf in Hf'. injection Hf' as <- <-.
      rewrite Hfo in Hfo'. injection Hfo' as <-.
      rewrite Hbase in Hbase'. injection Hbase' as <-.
      split.
      * eapply Forall_impl; [exact Hall|]. by intros x (? & ? & _).
      * intros Hfree. by eapply upload_many_pattern.
  - intros w0 w1 b file_name bytes fo base Hf Hfo Hbase Hup.
    destruct (upload_ok_frame_here req file_name bytes fo base Hf Hfo Hbase
                w0 w1 b Hup) as (name & ? & ? & ? & ? & _).
    by exists name.
Qed.

End Duplicates.

(** * Further properties *)

(** ** File sizes *)

Section Sizes.
Context `{Platform}.

(** The loop of [get_file_size] passes over [k] units when the size is at
    least [1024^k] times the denominator. *)
Lemma size_units_skip (units : list string) (num den : N) (k : nat) :
  k ≤ length units →
  (0 < k → (den * 1024 ^ N.of_nat k ≤ num)%N) →
  size_units units num den
  = size_units (drop k units) num (den * 1024 ^ N.of_nat k)%N.
Proof.
  revert units den. induction k as [|k IH]; intros units den Hlen Hbig.
  - by rewrite drop_0, N.mul_1_r.
  - destruct units as [|unit units]; [simpl in Hlen; lia|].
    simpl in Hlen.
    assert ((den * 1024 ^ N.of_nat (S k))%N
            = (den * 1024 * 1024 ^ N.of_nat k)%N) as Hpow.
    { rewrite Nat2N.inj_succ, N.pow_succ_r'. lia. }
    assert ((den * 1024 * 1024 ^ N.of_nat k ≤ num)%N) as Hbig'.
    { rewrite <- Hpow. apply Hbig. lia. }
    cbn [size_units drop].
    assert ((num <? 1024 * den)%N = false) as ->.
    { apply N.ltb_ge.
      pose proof (N.pow_nonzero 1024 (N.of_nat k)) as Hnz.
      assert (1 ≤ 1024 ^ N.of_nat k)%N by lia.
      nia. }
    rewrite Hpow. apply IH; [lia|]. by intros _.
Qed.

Lemma getsize_file (p data : string) (t : Z) (w : world) :
  fs w !! p = Some (File data t) →
  getsize p w = Ok (N.of_nat (String.length data)).
Proof. intros Hf. unfold getsize. by rewrite Hf. Qed.

(** X1.  For a regular file of [n] bytes, [get_file_size] shows [n] divided
    by [1024^k] with the [k]-th unit of B, KB, MB, GB, TB, where [k] is the
    one with [1024^k ≤ n < 1024^(k+1)] (no lower bound for [k = 0]); from
    [1024^5] bytes on it shows [n / 1024^5] with PB; and for a path that
    does not exist it shows [Unknown]. *)
Theorem get_file_size_unit (p data : string) (t : Z) (w : world) (k : nat) :
  fs w !! p = Some (File data t) →
  (0 < k → (1024 ^ N.of_nat k ≤ N.of_nat (String.length data))%N) →
  (∀ unit, ["B"; "KB"; "MB"; "GB"; "TB"] !! k = Some unit →
     (N.of_nat (String.length data) < 1024 ^ N.of_nat (S k))%N →
     get_file_size p w
     = format_2f (N.of_nat (String.length data)) (1024 ^ N.of_nat k)
       +:+ " " +:+ unit)
  ∧ (k = 5 →
     get_file_size p w
     = format_2f (N.of_nat (String.length data)) (1024 ^ 5) +:+ " PB")
  ∧ (∀ q, fs w !! q = None → get_file_size q w = "Unknown").
Proof.
  intros Hf Hbig. set (n := N.of_nat (String.length data)) in *.
  assert (∀ units, k ≤ length units →
            size_units units n 1
            = size_units (drop k units) n (1024 ^ N.of_nat k)%N) as Hskip.
  { intros units Hlen. rewrite (size_units_skip units n 1 k Hlen).
    - by rewrite N.mul_1_l.
    - intros Hk. rewrite N.mul_1_l. by apply Hbig. }
  split; [|split].
  - intros unit Hunit Hlt. unfold get_file_size.
    rewrite (getsize_file p data t w Hf). fold n.
    pose proof (lookup_lt_Some _ _ _ Hunit) as Hk.
    rewrite Hskip by (simpl in *; lia).
    rewrite (drop_S _ unit k Hunit). cbn [size_units].
    assert ((n <? 1024 * 1024 ^ N.of_nat k)%N = true) as ->; [|done].
    apply N.ltb_lt. by rewrite Nat2N.inj_succ, N.pow_succ_r' in Hlt.
  - intros ->. unfold get_file_size.
    rewrite (getsize_file p data t w Hf). fold n.
    by rewrite Hskip by (simpl; lia).
  - intros q Hq. unfold get_file_size, getsize. by rewrite Hq.
Qed.

End Sizes.

(** ** Image extensions *)

Lemma take_until_app (c : ascii) (l1 l2 : list ascii) :
  c ∉ l1 → take_until c (l1 ++ c :: l2) = l1.
Proof.
  induction l1 as [|a l1 IH]; simpl; intros Hc.
  - by rewrite bool_decide_eq_true_2.
  - rewrite bool_decide_eq_false_2 by (intros ->; apply Hc; by left).
    f_equal. apply IH. intros ?. apply Hc. by right.
Qed.

Lemma after_last_app (c : ascii) (l1 l2 : list ascii) :
  c ∉ l2 → after_last c (l1 ++ c :: l2) = l2.
Proof.
  intros Hc. unfold after_last.
  rewrite reverse_app, reverse_cons, <- app_assoc. simpl.
  rewrite take_until_app by (by rewrite elem_of_reverse).
  apply reverse_involutive.
Qed.

Lemma take_until_not_in (c : ascii) (l : list ascii) : c ∉ take_until c l.
Proof.
  induction l as [|a l IH]; simpl; [apply not_elem_of_nil|].
  destruct (decide (a = c)) as [->|Hne].
  - rewrite bool_decide_eq_true_2 by done. apply not_elem_of_nil.
  - rewrite bool_decide_eq_false_2 by done.
    intros [?|?]%elem_of_cons; [congruence|done].
Qed.

Lemma after_last_not_in (c : ascii) (l : list ascii) : c ∉ after_last c l.
Proof. unfold after_last. rewrite elem_of_reverse. apply take_until_not_in. Qed.

(** The classification looks at the text after the last dot only. *)
Lemma is_image_last_extension (stem ext : string) :
  dot ∉ chars ext →
  is_image (stem +:+ "." +:+ ext)
  = bool_decide (lower ext ∈ IMAGE_EXTENSIONS).
Proof.
  intros Hext. unfold is_image.
  assert (chars (stem +:+ "." +:+ ext) = chars stem ++ dot :: chars ext) as Hc
    by (by rewrite !chars_app).
  rewrite bool_decide_eq_false_2.
  2:{ intros E. apply (f_equal chars) in E. rewrite Hc in E.
      by destruct (chars stem). }
  assert (contains dot (stem +:+ "." +:+ ext) = true) as ->.
  { apply contains_true. rewrite Hc. apply elem_of_app. right. by left. }
  simpl. by rewrite Hc, after_last_app, str_chars.
Qed.

(** X2.  [is_image] is false for a name without a dot, and for a name that
    ends in a dot and an extension it is true exactly when the extension,
    in lower case, is one of the image extensions; so only the last
    extension counts and its case does not. *)
Theorem is_image_by_extension (name stem ext : string) :
  dot ∉ chars ext →
  (contains dot name = false → is_image name = false)
  ∧ is_image (stem +:+ "." +:+ ext)
    = bool_decide (lower ext ∈ IMAGE_EXTENSIONS).
Proof.
  intros Hext. split; [|by apply is_image_last_extension].
  intros Hno. unfold is_image. rewrite Hno.
  by destruct (bool_decide (name = "")).
Qed.

Lemma app_assoc_str (a b c : string) : (a +:+ b) +:+ c = a +:+ (b +:+ c).
Proof. apply chars_inj. by rewrite !chars_app, app_assoc. Qed.

(** What [splitext] returns when it finds an extension. *)
Lemma splitext_ext (p : string) :
  (splitext p).2 ≠ "" →
  ∃ ext, (dot ∉ chars ext) ∧ (splitext p).2 = "." +:+ ext
         ∧ p = (splitext p).1 +:+ "." +:+ ext.
Proof.
  intros Hext. pose proof (splitext_app p) as Happ. revert Hext Happ.
  unfold splitext.
  destruct (bool_decide (dot ∈ after_last slash (chars p))); [|done].
  destruct (forallb _ _); [done|]. cbn [fst snd]. intros _ Happ.
  exists (str (after_last dot (chars p))). rewrite chars_str.
  split; [apply after_last_not_in|]. split; [done|].
  by rewrite <- Happ at 1.
Qed.

(** X3.  When [splitext] finds an extension in the name, every numbered
    variant of the name is an image exactly when the name is. *)
Theorem numbered_keeps_image_type (base : string) (k : nat) :
  (splitext base).2 ≠ "" →
  is_image (numbered base k) = is_image base.
Proof.
  intros Hext. destruct (splitext_ext base Hext) as (ext & Hdot & He & Hb).
  unfold numbered. destruct (splitext base) as [stem e]. simpl in *. subst e.
  rewrite Hb, is_image_last_extension by done.
  assert (stem +:+ "_" +:+ pretty k +:+ "." +:+ ext
          = (stem +:+ "_" +:+ pretty k) +:+ "." +:+ ext) as ->
    by (by rewrite !app_assoc_str).
  by rewrite is_image_last_extension.
Qed.

(** ** Folder names *)

Lemma lstrip_id (l : list ascii) :
  (∀ c, head l = Some c → is_space c = false) → lstrip l = l.
Proof.
  destruct l as [|a l]; [done|]. simpl. intros Hhead.
  by rewrite (Hhead a eq_refl).
Qed.

Lemma strip_chars_id (l : list ascii) :
  (∀ c, head l = Some c → is_space c = false) →
  (∀ c, last l = Some c → is_space c = false) →
  strip_chars l = l.
Proof.
  intros Hhead Hlast. unfold strip_chars.
  rewrite (lstrip_id l Hhead), lstrip_id, reverse_involutive; [done|].
  intros c. rewrite head_reverse. apply Hlast.
Qed.

(** Stripping cuts a piece off each end. *)
Lemma strip_chars_segment (l : list ascii) :
  ∃ pre suf, l = pre ++ strip_chars l ++ suf.
Proof.
  destruct (lstrip_suffix l) as [pre Hl].
  destruct (lstrip_suffix (reverse (lstrip l))) as [pre2 Hr].
  exists pre, (reverse pre2). unfold strip_chars.
  rewrite <- reverse_app, <- Hr, reverse_involutive. exact Hl.
Qed.

Section FolderNames.
Context `{Platform}.

(** X4.  A folder name that passed [sanitize_foldername] passes it again
    unchanged. *)
Theorem sanitize_foldername_idempotent (s r : string) :
  sanitize_foldername s = Some r → sanitize_foldername r = Some r.
Proof.
  intros (Hne & Hlen & Hall & Hhead & Hlast)%sanitize_foldername_Some.
  unfold sanitize_foldername.
  rewrite bool_decide_eq_false_2 by done.
  assert (filter (λ c, foldername_char c) (chars r) = chars r) as ->.
  { apply filter_forallb, forallb_forall. intros c Hc%list_elem_of_In.
    rewrite Forall_forall in Hall. by apply Hall. }
  assert (strip (str (chars r)) = r) as ->.
  { unfold strip. rewrite chars_str, strip_chars_id by done. apply str_chars. }
  rewrite bool_decide_eq_false_2 by done.
  by rewrite bool_decide_eq_false_2 by lia.
Qed.

(** X5.  [sanitize_foldername] only deletes characters: the characters of
    its result occur in the input, in the same order. *)
Theorem sanitize_foldername_sublist (s r : string) :
  sanitize_foldername s = Some r → chars r `sublist_of` chars s.
Proof.
  unfold sanitize_foldername.
  destruct (bool_decide (s = "")); [done|].
  set (kept := filter (λ c, foldername_char c) (chars s)).
  destruct (bool_decide (strip (str kept) = "") || _); [done|].
  intros [= <-]. unfold strip. rewrite !chars_str.
  destruct (strip_chars_segment kept) as (pre & suf & Hseg).
  trans kept; [|apply sublist_filter].
  rewrite Hseg at 2. apply sublist_inserts_l, sublist_inserts_r. done.
Qed.

End FolderNames.

(** ** Thumbnails and the store *)

Section StoreMore.
Context `{Platform}.


Lemma save_metadata_clock (data : mapping) (w : world) :
  clock (save_metadata data w).2 = clock w
  ∧ resolver (save_metadata data w).2 = resolver w.
Proof.
  by destruct (save_metadata_spec data w) as (b & w' & -> & ? & ? & _).
Qed.

(** X7.  Loading and saving the metadata change no path other than the
    metadata file, its backup and its temporary file, and change neither
    the clock nor the resolver. *)
Theorem store_touches_store_only (data : mapping) (w : world) :
  only_store w (load_metadata w).2
  ∧ only_store w (save_metadata data w).2
  ∧ clock (load_metadata w).2 = clock w
  ∧ clock (save_metadata data w).2 = clock w
  ∧ resolver (load_metadata w).2 = resolver w
  ∧ resolver (save_metadata data w).2 = resolver w.
Proof.
  destruct (load_metadata_clock w) as [? ?].
  destruct (save_metadata_clock data w) as [? ?].
  repeat split; try done.
  - apply load_metadata_only_store.
  - apply save_metadata_only_store.
Qed.

(** X8.  After [save_metadata] returned [True], provided the text
    [json.dump] writes for the mapping loads back as that mapping,
    [load_metadata] returns the mapping that was saved and changes
    nothing. *)
Theorem load_after_save (data : mapping) (w w' : world) :
  save_metadata data w = (Ok true, w') →
  (∀ text, json_dump data = Some text → json_load text = Object data) →
  load_metadata w' = (Ok data, w').
Proof.
  intros Hsave Hround.
  destruct (save_metadata_spec data w) as (b & w0 & E & _ & _ & _ & Htrue & _).
  rewrite Hsave in E. injection E as <- <-.
  destruct (Htrue eq_refl) as (text & _ & _ & Hdump & _ & _ & _ & Hfile & _).
  unfold load_metadata.
  rewrite (proj2 (path_exists_true _ _)) by (by rewrite Hfile).
  by rewrite (read_document_file w' text _ Hfile), (Hround text Hdump).
Qed.

Lemma load_metadata_same_file (w a : world) :
  fs a !! METADATA_FILE = fs w !! METADATA_FILE →
  (load_metadata a).1 = (load_metadata w).1.
Proof.
  intros E. unfold load_metadata, path_exists.
  rewrite E, (read_document_agree w a E).
  destruct (bool_decide _); [|done].
  destruct (read_document w); try done.
  by destruct (os_rename _ _ a), (os_rename _ _ w).
Qed.

(** X9.  After [save_metadata] returned [False], [load_metadata] returns
    what it returned before the attempt: a failed save loses nothing that
    was stored. *)
Theorem failed_save_keeps_metadata (data : mapping) (w w' : world) :
  save_metadata data w = (Ok false, w') →
  (load_metadata w').1 = (load_metadata w).1.
Proof.
  intros Hsave.
  destruct (save_metadata_spec data w) as (b & w0 & E & _ & _ & _ & _ & Hfalse).
  rewrite Hsave in E. injection E as <- <-.
  destruct (Hfalse eq_refl) as [_ Hmeta].
  by apply load_metadata_same_file.
Qed.

End StoreMore.

(** ** More on reconciliation *)

Lemma preserves_refl (w : world) : preserves w w.
Proof. done. Qed.


Lemma folder_in_uploads (fo : string) :
  entry_name fo → in_uploads (path_join UPLOAD_BASE fo).
Proof.
  intros Hfo. rewrite path_join_entry by done. apply has_prefix_app.
Qed.

Section ReconcileMore.
Context `{Platform}.









(** X12.  The mapping a pass returns has distinct identifiers, and each of
    its records names a path that exists once the metadata is loaded. *)
Theorem returned_records_have_files (w w' : world) (all_files : mapping) :
  scan_all_uploads w = (Ok all_files, w') →
  NoDup all_files.*1
  ∧ Forall (λ kv, ∃ p, filepath kv.2 = Some p
                       ∧ path_exists p (load_metadata w).2 = true) all_files.
Proof.
  intros Hscan.
  apply scan_all_uploads_inv in Hscan
    as (metadata & w1 & w2 & saved & Hl & _ & _ & -> & _).
  rewrite Hl. simpl. split; [apply reconciled_NoDup|].
  apply Forall_forall. intros kv Hkv.
  apply elem_of_reconciled in Hkv as [Hk _]. unfold kept in Hk.
  destruct (filepath kv.2) as [p|]; [|done]. by exists p.
Qed.


(** X14.  A record a pass returns that was not in the loaded metadata is
    the record of a discovered file: its path is below the upload
    directory, its description is [Auto-detected file], and who uploaded
    it and from where are [Unknown]. *)
Theorem new_records_are_discovered (w w' : world) (metadata all_files : mapping)
    (kv : string * FileRecord) :
  (load_metadata w).1 = Ok metadata →
  scan_all_uploads w = (Ok all_files, w') →
  kv ∈ all_files → kv ∉ metadata →
  ∃ fo fn,
    folder kv.2 = Some fo ∧ filename kv.2 = Some fn
    ∧ filepath kv.2 = Some (entry_path fo fn)
    ∧ in_uploads (entry_path fo fn)
    ∧ description kv.2 = Some "Auto-detected file"
    ∧ uploaded_by kv.2 = Some "Unknown"
    ∧ system_ip kv.2 = Some "Unknown"
    ∧ is_img kv.2 = Some (is_image fn).
Proof.
  intros Hload Hscan Hin Hnew.
  apply scan_all_uploads_inv in Hscan
    as (metadata' & w1 & w2 & saved & Hl & _ & _ & -> & _).
  rewrite Hl in Hload. simpl in Hload. injection Hload as ->.
  apply elem_of_reconciled in Hin as [_ [?|([fo fn] & He & Hd)]]; [done|].
  apply upload_entries_in_uploads in He. simpl in *.
  unfold discovered in Hd.
  destruct (fs w1 !! entry_path fo fn) as [[data t|]|]; try done.
  injection Hd as <-. by exists fo, fn.
Qed.

(** X15.  When the loaded metadata has distinct identifiers, each of its
    records whose path exists is returned by the pass under the same
    identifier, unchanged. *)
Theorem live_record_kept (w w' : world) (metadata all_files : mapping)
    (file_id p : string) (data : FileRecord) :
  (load_metadata w).1 = Ok metadata →
  NoDup metadata.*1 →
  (file_id, data) ∈ metadata →
  filepath data = Some p → path_exists p w = true →
  scan_all_uploads w = (Ok all_files, w') →
  dict_get file_id all_files = Some data.
Proof.
  intros Hload Hnd Hin Hpath Hex Hscan.
  apply scan_all_uploads_inv in Hscan
    as (metadata' & w1 & w2 & saved & Hl & _ & _ & -> & _).
  rewrite Hl in Hload. simpl in Hload. injection Hload as ->.
  assert (w1 = w) as ->.
  { eapply load_metadata_nonempty; [done|]. intros ->. by apply elem_of_nil in Hin. }
  assert (dict_get file_id (keep_existing w metadata) = Some data) as Hkeep.
  { apply dict_get_elem_of; [apply keep_existing_NoDup|].
    rewrite keep_existing_filter by done. apply list_elem_of_filter.
    split; [|done]. unfold kept. simpl. by rewrite Hpath. }
  unfold reconciled. destruct (path_exists UPLOAD_BASE w); [|done].
  destruct (add_entries_app w (keep_existing w metadata) (upload_entries w))
    as (new & -> & _).
  by apply dict_get_app_l.
Qed.

End ReconcileMore.

(** ** More on uploads and the gallery *)

Section UploadMore.
Context `{Platform}.

(** X16.  A request without a file part, with an empty file name or with
    a blank folder name is answered 400; and whenever [upload_file]
    answers 400 it has changed nothing. *)
Theorem upload_400_changes_nothing (req : request) (w : world) :
  (req_file req = None
   ∨ (∃ bytes, req_file req = Some ("", bytes))
   ∨ strip (default "" (req_foldername req)) = "" →
   ∃ msg, upload_file req w = Some ((400, ErrorBody msg), w))
  ∧ ∀ b w', upload_file req w = Some ((400, b), w') → w' = w.
Proof.
  split.
  - unfold upload_file. intros [Hnone|[[bytes Hempty]|Hblank]].
    + rewrite Hnone. by eexists.
    + rewrite Hempty. by eexists.
    + destruct (req_file req) as [[file_name bytes]|]; [|by eexists].
      destruct (bool_decide (file_name = "")); [by eexists|].
      rewrite Hblank. by eexists.
  - intros b w'. unfold upload_file.
    destruct (req_file req) as [[file_name bytes]|]; [|by intros [= _ <-]].
    destruct (bool_decide (file_name = "")); [by intros [= _ <-]|].
    destruct (bool_decide (strip (default "" (req_foldername req)) = ""));
      [by intros [= _ <-]|].
    destruct (get_system_info w) as [hostname ip].
    destruct (sanitize_foldername _) as [fo|]; [|by intros [= _ <-]].
    destruct (sanitize_filename file_name) as [base|]; [|by intros [= _ <-]].
    destruct (makedirs _ w) as [w1|]; [|done].
    destruct (free_name _ _ _ _ _ w1) as [[name path]|]; [|done].
    destruct (write_file path bytes w1) as [w2|]; [|done].
    intros [= Hreg].
    pose proof (register_upload_status fo name path
                  (strip (default "" (req_description req))) hostname ip w2)
      as Hst.
    rewrite Hreg in Hst. done.
Qed.

Lemma string_compare_refl (s : string) : String.compare s s = Eq.
Proof.
  induction s as [|a s IH]; simpl; [done|].
  unfold Ascii.compare. by rewrite N.compare_refl.
Qed.

(** The order of the listing among views of one date is the order of the
    mapping. *)
Lemma insert_by_date_filter (d : string) (x : FileView) (l : list FileView) :
  filter (λ v, v_date v = d) (insert_by_date x l)
  = filter (λ v, v_date v = d) (x :: l).
Proof.
  induction l as [|y l IH]; [done|]. simpl.
  destruct (String.ltb (v_date x) (v_date y)) eqn:Hlt; [|done].
  rewrite (filter_cons _ y), IH, !(filter_cons _ x), (filter_cons _ y).
  destruct (decide (v_date x = d)) as [Hx|Hx]; [|done].
  destruct (decide (v_date y = d)) as [Hy|Hy]; [|done].
  exfalso. rewrite Hx, Hy in Hlt. unfold String.ltb in Hlt.
  by rewrite string_compare_refl in Hlt.
Qed.

Lemma sort_newest_first_filter (d : string) (l : list FileView) :
  filter (λ v, v_date v = d) (sort_newest_first l)
  = filter (λ v, v_date v = d) l.
Proof.
  induction l as [|x l IH]; [done|]. simpl.
  by rewrite insert_by_date_filter, !filter_cons, IH.
Qed.

(** X17.  The sort of the gallery is stable: the views that carry one and
    the same date are listed in the order in which their records are in
    the mapping. *)
Theorem gallery_sort_stable (w w' : world) (all_files : mapping) (d : string) :
  scan_all_uploads w = (Ok all_files, w') →
  ∃ files stats,
    gallery w = ((200, GalleryBody files stats), w')
    ∧ filter (λ v, v_date v = d) files
      = filter (λ v, v_date v = d)
          ((λ '(file_id, data), view_of file_id data) <$> all_files).
Proof.
  intros Hscan. unfold gallery. rewrite Hscan, collect_spec.
  do 2 eexists. split; [done|]. apply sort_newest_first_filter.
Qed.

End UploadMore.

(** ** An upload and the next listing *)

Lemma pretty_N_go_no_slash (x : N) (s : string) :
  slash ∉ chars s → slash ∉ chars (pretty_N_go x s).
Proof.
  revert s. induction (N.lt_wf_0 x) as [x _ IH]; intros s Hs.
  assert (x = 0 ∨ 0 < x)%N as [->|Hpos] by lia.
  - by rewrite pretty_N_go_0.
  - rewrite pretty_N_go_step by done. apply IH; [by apply N.div_lt|].
    simpl. intros [Hc|Hin]%elem_of_cons; [|done].
    revert Hc. unfold pretty_N_char, slash. by repeat case_match.
Qed.

Lemma pretty_nat_no_slash (k : nat) : slash ∉ chars (pretty k).
Proof.
  unfold pretty, pretty_nat, pretty, pretty_N.
  destruct (decide (N.of_nat k = 0%N)).
  - simpl. intros [?|?%elem_of_nil]%elem_of_cons; done.
  - apply pretty_N_go_no_slash. simpl. apply not_elem_of_nil.
Qed.

Lemma numbered_entry_name (base : string) (k : nat) :
  entry_name base → entry_name (numbered base k).
Proof.
  intros [Hne Hsl]. pose proof (splitext_app base) as Happ.
  unfold numbered. destruct (splitext base) as [stem ext]. simpl in Happ.
  assert (chars base = chars stem ++ chars ext) as Hb
    by (by rewrite <- Happ, chars_app).
  split.
  - intros E. apply (f_equal String.length) in E.
    rewrite !app_length in E. simpl in E. lia.
  - rewrite !chars_app. simpl. rewrite Hb in Hsl.
    rewrite !elem_of_app, elem_of_cons, elem_of_app.
    intros [?|[?|[?|?]]]; try done.
    + apply Hsl, elem_of_app. by left.
    + by apply (pretty_nat_no_slash k).
    + apply Hsl, elem_of_app. by right.
Qed.





Section UploadVisible.
Context `{Platform}.
Hypothesis isalnum_slash : isalnum slash = false.

(** The worlds of a successful upload, step by step. *)
Lemma upload_ok_steps (req : request) (w w' : world) (b : body) :
  upload_file req w = Some ((200, b), w') →
  ∃ file_name bytes fo name w1,
    req_file req = Some (file_name, bytes)
    ∧ entry_name fo ∧ entry_name name
    ∧ b = UploadBody fo name (entry_path fo name) (get_system_info w).1
            (get_system_info w).2 (get_file_size (entry_path fo name) w')
    ∧ makedirs (path_join UPLOAD_BASE fo) w = Ok w1
    ∧ fs w1 !! entry_path fo name = None
    ∧ agree_on in_uploads
        (set_fs w1 (<[entry_path fo name := File bytes (clock w1)]> (fs w1))) w'.
Proof.
  intros Hup.
  apply upload_ok_inv in Hup
    as (file_name & bytes & fo & base & w1 & name & path & w2
        & Hfile & Hfo & Hbase & Hmk & Hfree & Hwr & Hreg).
  pose proof (sanitized_folder_entry isalnum_slash _ _ Hfo) as Efo.
  pose proof (sanitized_file_entry isalnum_slash _ _ Hbase) as Ebase.
  apply free_name_spec in Hfree as (-> & Hfresh & Hname).
  assert (entry_name name) as Ename.
  { destruct Hname as [->|(_ & j & _ & -> & _)]; [done|].
    by apply numbered_entry_name. }
  apply write_file_ok in Hwr as ->.
  pose proof (register_upload_agree fo name (path_join (path_join UPLOAD_BASE fo) name)
                (strip (default "" (req_description req)))
                (get_system_info w).1 (get_system_info w).2
                (set_fs w1 (<[path_join (path_join UPLOAD_BASE fo) name
                              := File bytes (clock w1)]> (fs w1))))
    as [Hag _].
  pose proof (register_upload_inv _ _ _ _ _ _ _ _ _ Hreg)
    as (_ & _ & _ & [= ->] & _).
  rewrite Hreg in Hag. simpl in Hag.
  exists file_name, bytes, fo, name, w1.
  apply path_exists_false in Hfresh. unfold entry_path.
  split; [done|]. split; [done|]. split; [done|]. split; [reflexivity|].
  split; [done|]. split; [done|]. exact Hag.
Qed.

(** X18.  A successful upload writes the bytes of the request, stamped
    with the current time, at a path below the upload directory where
    nothing was before, and leaves every existing path below the upload
    directory as it was: it never overwrites an uploaded file. *)
Theorem upload_never_overwrites (req : request) (w w' : world) (b : body) :
  upload_file req w = Some ((200, b), w') →
  ∃ file_name bytes fo name ho ip size,
    req_file req = Some (file_name, bytes)
    ∧ b = UploadBody fo name (entry_path fo name) ho ip size
    ∧ in_uploads (entry_path fo name)
    ∧ fs w !! entry_path fo name = None
    ∧ fs w' !! entry_path fo name = Some (File bytes (clock w))
    ∧ ∀ q, in_uploads q → is_Some (fs w !! q) → fs w' !! q = fs w !! q.
Proof.
  intros Hup.
  apply upload_ok_steps in Hup
    as (file_name & bytes & fo & name & w1
        & Hfile & Efo & Ename & -> & Hmk & Hfresh & Hag).
  destruct (makedirs_spec _ w w1 Hmk) as (Hc & _ & Hmkf).
  assert (in_uploads (entry_path fo name)) as Hin
    by (apply stored_path_in_uploads; [done|by apply entry_name_no_lead]).
  exists file_name, bytes, fo, name, (get_system_info w).1,
    (get_system_info w).2, (get_file_size (entry_path fo name) w').
  split; [done|]. split; [done|]. split; [done|]. split; [|split].
  - destruct (fs w !! entry_path fo name) eqn:Hl; [|done].
    rewrite Hmkf in Hfresh; [congruence|]. left. by rewrite Hl.
  - rewrite <- Hag by done. simpl. by rewrite lookup_insert_eq, Hc.
  - intros q Hq Hex. rewrite <- Hag by done. simpl.
    rewrite lookup_insert_ne.
    + apply Hmkf. by left.
    + intros <-. rewrite Hmkf in Hfresh by (by left).
      rewrite Hfresh in Hex. by destruct Hex.
Qed.


End UploadVisible.

(** ** Thumbnails of uploads *)

Lemma ancestors_go_no_slash (seen rest : list ascii) :
  slash ∉ rest → ancestors_go seen rest = [str (reverse seen ++ rest)].
Proof.
  revert seen. induction rest as [|a rest IH]; intros seen Hrest; simpl.
  - by rewrite app_nil_r.
  - rewrite bool_decide_eq_false_2 by (intros ->; apply Hrest; by left).
    simpl. rewrite IH by (intros ?; apply Hrest; by right).
    by rewrite reverse_cons, <- app_assoc.
Qed.

(** [os.makedirs] of a folder path goes through the upload directory and
    the folder. *)
Lemma ancestors_folder_eq (fo : string) :
  entry_name fo →
  ancestors (path_join UPLOAD_BASE fo)
  = [UPLOAD_BASE; path_join UPLOAD_BASE fo].
Proof.
  intros Hfo. rewrite path_join_entry by done. unfold ancestors.
  assert (chars (UPLOAD_BASE +:+ "/" +:+ fo)
          = chars UPLOAD_BASE ++ slash :: chars fo) as Hc
    by (by rewrite !chars_app).
  rewrite Hc. cbn -[ancestors_go]. simpl.
  rewrite ancestors_go_no_slash by apply Hfo. simpl.
  do 2 f_equal. rewrite <- (str_chars (UPLOAD_BASE +:+ "/" +:+ fo)), Hc.
  done.
Qed.

Lemma drop_through_app (c : ascii) (l1 l2 : list ascii) :
  c ∉ l1 → drop_through c (l1 ++ c :: l2) = l2.
Proof.
  induction l1 as [|a l1 IH]; simpl; intros Hc.
  - by rewrite bool_decide_eq_true_2.
  - rewrite bool_decide_eq_false_2 by (intros ->; apply Hc; by left).
    apply IH. intros ?. apply Hc. by right.
Qed.

Lemma before_last_app (c : ascii) (l1 l2 : list ascii) :
  c ∉ l2 → before_last c (l1 ++ c :: l2) = l1.
Proof.
  intros Hc. unfold before_last.
  rewrite reverse_app, reverse_cons, <- app_assoc. simpl.
  rewrite drop_through_app by (by rewrite elem_of_reverse).
  apply reverse_involutive.
Qed.

Lemma thumbnail_name_entry (fo fn : string) :
  entry_name fo → entry_name fn → entry_name (thumbnail_name fo fn).
Proof.
  intros [_ Hfo] [_ Hfn]. unfold thumbnail_name. split.
  - intros E. apply (f_equal String.length) in E.
    rewrite !app_length in E. simpl in E. lia.
  - rewrite !chars_app. simpl. rewrite elem_of_app, elem_of_cons.
    intros [?|[?|?]]; done.
Qed.

(** The thumbnail of an entry is an entry of the thumbnail directory. *)
Lemma thumbnail_path_shape (tn : string) :
  entry_name tn →
  dirname (path_join THUMBNAIL_DIR tn) = THUMBNAIL_DIR
  ∧ path_join THUMBNAIL_DIR tn ∉ STORE_PATHS
  ∧ ¬ in_uploads (path_join THUMBNAIL_DIR tn).
Proof.
  intros Htn. split; [|split; [|apply thumbnail_not_in_uploads]].
  - rewrite path_join_entry by done. unfold dirname.
    assert (chars (THUMBNAIL_DIR +:+ "/" +:+ tn)
            = chars THUMBNAIL_DIR ++ slash :: chars tn) as Hc
      by (by rewrite !chars_app).
    assert (contains slash (THUMBNAIL_DIR +:+ "/" +:+ tn) = true) as ->.
    { apply contains_true. rewrite Hc, elem_of_app. right. by left. }
    rewrite Hc, before_last_app by apply Htn. apply str_chars.
  - rewrite path_join_entry by done.
    intros Hin. repeat (apply elem_of_cons in Hin as [Hin|Hin]; [done|]).
    by apply elem_of_nil in Hin.
Qed.

Section UploadThumbnail.
Context `{Platform}.
Hypothesis isalnum_slash : isalnum slash = false.

(** After the file is written, only the thumbnail step changes paths
    outside the store. *)
Lemma register_upload_outside_store (fo fi fp de ho ip : string) (w : world)
    (q : string) :
  q ∉ STORE_PATHS →
  fs (register_upload fo fi fp de ho ip w).2 !! q
  = fs (if is_image fi
        then (create_thumbnail fp
                (path_join THUMBNAIL_DIR (thumbnail_name fo fi)) w).2
        else w) !! q.
Proof.
  intros Hq. unfold register_upload.
  set (w1 := if is_image fi then _ else w).
  pose proof (load_metadata_only_store w1 q Hq) as Hload.
  destruct (load_metadata_never_raises w1) as [m Hm].
  destruct (load_metadata w1) as [o w2]. simpl in *. subst o.
  match goal with |- context [save_metadata ?d ?wa] =>
    pose proof (save_metadata_only_store d wa q Hq) as Hsave;
    destruct (save_metadata_spec d wa) as (b & w3 & E & _) end.
  rewrite E in *. simpl in *. congruence.
Qed.

(** X20.  A successful upload whose stored name is not an image name
    leaves every thumbnail path as it was.  When the stored name is an
    image name, the imaging library renders the uploaded bytes, the
    thumbnail directory exists and the thumbnail path is not a directory,
    the thumbnail path holds the rendering afterwards, also when a
    thumbnail was there before. *)
Theorem upload_writes_thumbnail (req : request) (w w' : world)
    (file_name bytes fo name path ho ip size : string) :
  upload_file req w = Some ((200, UploadBody fo name path ho ip size), w') →
  req_file req = Some (file_name, bytes) →
  (is_image name = false →
     ∀ tn, entry_name tn →
       fs w' !! path_join THUMBNAIL_DIR tn = fs w !! path_join THUMBNAIL_DIR tn)
  ∧ (is_image name = true →
     ∀ jpeg, render_thumbnail bytes = Some jpeg →
       isdir THUMBNAIL_DIR w = true →
       fs w !! path_join THUMBNAIL_DIR (thumbnail_name fo name) ≠ Some Dir →
       fs w' !! path_join THUMBNAIL_DIR (thumbnail_name fo name)
       = Some (File jpeg (clock w))).
Proof.
  intros Hup Hfile.
  apply upload_ok_inv in Hup
    as (file_name' & bytes' & fo' & base & w1 & name' & path' & w2
        & Hfile' & Hfo & Hbase & Hmk & Hfree & Hwr & Hreg).
  rewrite Hfile in Hfile'. injection Hfile' as <- <-.
  pose proof (register_upload_inv _ _ _ _ _ _ _ _ _ Hreg)
    as (_ & _ & _ & [= <- <- <- _ _ _] & _).
  pose proof (sanitized_folder_entry isalnum_slash _ _ Hfo) as Efo.
  pose proof (sanitized_file_entry isalnum_slash _ _ Hbase) as Ebase.
  apply free_name_spec in Hfree as (Hpath & Hfresh & Hname).
  assert (entry_name name) as Ename.
  { destruct Hname as [->|(_ & j & _ & -> & _)]; [done|].
    by apply numbered_entry_name. }
  assert (in_uploads path) as Hin.
  { rewrite Hpath. apply stored_path_in_uploads; [done|].
    by apply entry_name_no_lead. }
  destruct (makedirs_spec _ w w1 Hmk) as (Hc & _ & Hmkf).
  apply write_file_ok in Hwr as ->.
  assert (∀ tn, entry_name tn →
            fs (set_fs w1 (<[path := File bytes (clock w1)]> (fs w1)))
               !! path_join THUMBNAIL_DIR tn
            = fs w !! path_join THUMBNAIL_DIR tn) as Hthumb.
  { intros tn Htn. destruct (thumbnail_path_shape tn Htn) as (_ & _ & Hnu).
    simpl. rewrite lookup_insert_ne by (intros E; apply Hnu; by rewrite <- E).
    apply Hmkf. right. rewrite ancestors_folder_eq by done.
    intros Hanc. apply Hnu.
    apply elem_of_cons in Hanc as [->|Hanc]; [apply in_uploads_base|].
    apply list_elem_of_singleton in Hanc as ->. by apply folder_in_uploads. }
  pose proof (f_equal snd Hreg) as Hw'. simpl in Hw'. subst w'.
  split.
  - intros Himg tn Htn. destruct (thumbnail_path_shape tn Htn) as (_ & Hns & _).
    rewrite register_upload_outside_store by done. rewrite Himg.
    by apply Hthumb.
  - intros Himg jpeg Hrender Hdir Hnotdir.
    pose proof (thumbnail_name_entry fo name Efo Ename) as Etn.
    destruct (thumbnail_path_shape _ Etn) as (Hdn & Hns & Hnu).
    rewrite register_upload_outside_store by done. rewrite Himg.
    set (w2 := set_fs w1 (<[path := File bytes (clock w1)]> (fs w1))) in *.
    set (tp := path_join THUMBNAIL_DIR (thumbnail_name fo name)) in *.
    unfold create_thumbnail.
    assert (read_file path w2 = Ok bytes) as ->.
    { unfold read_file, w2. simpl. by rewrite lookup_insert_eq. }
    rewrite Hrender.
    assert (write_file tp jpeg w2
            = Ok (set_fs w2 (<[tp := File jpeg (clock w2)]> (fs w2)))) as ->.
    { unfold write_file.
      assert (isdir tp w2 = false) as ->.
      { apply isdir_false. unfold tp. by rewrite Hthumb. }
      assert (parent_ok tp w2 = true) as ->; [|done].
      unfold parent_ok. rewrite Hdn. apply orb_true_iff. right.
      apply isdir_true. apply isdir_true in Hdir.
      unfold w2. simpl.
      rewrite lookup_insert_ne by (intros E; by rewrite E in Hin).
      rewrite Hmkf; [done|]. left. by rewrite Hdir. }
    simpl. by rewrite lookup_insert_eq, Hc.
Qed.

End UploadThumbnail.

(** ** Order of the returned mapping *)

Section ReconcileOrder.
Context `{Platform}.

(** X21.  When the loaded metadata has distinct identifiers, the mapping a
    pass returns starts with the loaded records whose path exists, in the
    order in which they were loaded, and goes on with records of files
    discovered below the upload directory only. *)
Theorem kept_records_come_first (w w' : world) (metadata all_files : mapping) :
  (load_metadata w).1 = Ok metadata →
  NoDup metadata.*1 →
  scan_all_uploads w = (Ok all_files, w') →
  ∃ new,
    all_files
    = filter (λ kv, kept (load_metadata w).2 kv = true) metadata ++ new
    ∧ Forall (λ kv, ∃ fo fn, (fo, fn) ∈ upload_entries (load_metadata w).2
                             ∧ discovered (load_metadata w).2 fo fn = Some kv)
             new.
Proof.
  intros Hload Hnd Hscan.
  apply scan_all_uploads_inv in Hscan
    as (metadata' & w1 & w2 & saved & Hl & _ & _ & -> & Hok).
  rewrite Hl in *. simpl in *. injection Hload as ->.
  unfold reconciled.
  destruct (path_exists UPLOAD_BASE w1) eqn:Hex.
  - destruct (add_entries_app w1 (keep_existing w1 metadata) (upload_entries w1))
      as (new & -> & _ & Hnew).
    exists new. rewrite keep_existing_filter by done. split; [done|].
    eapply Forall_impl; [exact Hnew|]. intros kv ([fo fn] & He & Hd).
    by exists fo, fn.
  - exists []. rewrite app_nil_r, keep_existing_filter by done. by split.
Qed.

End ReconcileOrder.

(** * The properties on the reference platform *)

Module Checks.
Import Reference.


Lemma load_metadata_corrupt_witness :
  (load_metadata corrupt_world).1 = Ok []
  ∧ fs (load_metadata corrupt_world).2 !! BACKUP_FILE = Some (File "{oops" 150)
  ∧ fs (load_metadata corrupt_world).2 !! METADATA_FILE = None.
Proof.
  pose proof (@load_metadata_corrupt platform corrupt_world "{oops" 150)
    as Hthm.
  destruct Hthm as [Hempty Hbackup]; [reflexivity|reflexivity|].
  change (isdir BACKUP_FILE corrupt_world) with false in Hbackup.
  destruct Hbackup as (Hb & Hm & _). by repeat split.
Defined.

(** C4, as stated, fails: in [undecodable_world] the metadata file is not
    UTF-8, so reading it raises an error that is not a [JSONDecodeError];
    [load_metadata] returns the empty mapping through the general handler,
    which makes no backup. *)
Lemma undecodable_not_backed_up : ¬ backs_up_when_invalid undecodable_world.
Proof.
  intros Hclaim.
  destruct (Hclaim (String "255"%char "") 150%Z) as [_ Hbackup];
    [reflexivity|by right|].
  specialize (Hbackup eq_refl). vm_compute in Hbackup. discriminate.
Qed.


Lemma stale_record_pruned_witness :
  ("a_gone.txt_60.0", gone_record) ∉
    match (scan_all_uploads stale_world).1 with Ok m => m | Error => [] end.
Proof.
  eapply (@stale_record_pruned platform stale_world
            (scan_all_uploads stale_world).2
            [("a_gone.txt_60.0", gone_record);
             ("a_b.txt_100.0", old_revision_record)]).
  - vm_compute. reflexivity.
  - by left.
  - intros p [= <-]. vm_compute. reflexivity.
  - vm_compute. reflexivity.
Defined.




(** The same happens the other way round in [blocked_save_world]: the
    first pass drops the record [x], whose thumbnail path does not exist,
    writes that very thumbnail for [uploads/a/b.jpg], and cannot save
    because a directory is in the way; the second pass loads the old
    metadata again, finds the path of [x], and keeps it. *)
Example thumbnail_pass_repeats_differently : ¬ idempotent_at blocked_save_world.
Proof.
  intros Hclaim.
  assert (∃ first w' second w'',
            scan_all_uploads blocked_save_world = (Ok first, w')
            ∧ scan_all_uploads w' = (Ok second, w'')
            ∧ length first = 1 ∧ length second = 2)
    as (first & w' & second & w'' & H1 & H2 & Hl1 & Hl2).
  { do 4 eexists. split; [vm_compute; reflexivity|].
    split; [vm_compute; reflexivity|]. split; reflexivity. }
  rewrite (Hclaim first w' second w'' H1 H2) in Hl2. congruence.
Qed.



Lemma sanitizers_block_traversal_witness :
  (∀ r, sanitize_foldername "Trip/../2024" = Some r → slash ∉ chars r)
  ∧ (∀ r, sanitize_filename "../../etc/pass wd.txt" = Some r →
          (slash ∉ chars r) ∧ r ≠ "..").
Proof.
  destruct (@sanitizers_block_traversal platform
              "Trip/../2024" "../../etc/pass wd.txt")
    as (Hfolder & Hfile & _); try (vm_compute; reflexivity).
  split.
  - intros r Hr. by destruct (Hfolder r Hr) as (_ & _ & _ & _ & ? & _).
  - intros r Hr. by destruct (Hfile r Hr) as (_ & _ & _ & ? & _ & ?).
Defined.

Lemma uploaded_by_is_fixed_name_witness :
  ∃ b w', upload_file photo_request fresh_world = Some ((200, b), w')
    ∧ ∃ fo fi fp ip size, b = UploadBody fo fi fp "Unknown" ip size.
Proof.
  assert (∃ b w', upload_file photo_request fresh_world = Some ((200, b), w'))
    as (b & w' & Hup) by (do 2 eexists; vm_compute; reflexivity).
  exists b, w'. split; [done|].
  destruct (@uploaded_by_is_fixed_name platform photo_request fresh_world w' b Hup)
    as ((fo & fi & fp & de & ip & size & _ & _ & _ & -> & _) & _).
  by exists fo, fi, fp, ip, size.
Defined.

(** An upload answers 200 although the metadata could not be saved: a
    directory is at the temporary path of the store. *)
Example upload_succeeds_without_metadata :
  ∃ b w', upload_file photo_request blocked_save_world = Some ((200, b), w')
    ∧ fs w' !! "uploads/Trip 2024/photo.jpg" = Some (File "pixels" 1000)
    ∧ fs w' !! METADATA_FILE = fs blocked_save_world !! METADATA_FILE.
Proof.
  do 2 eexists. split; [vm_compute; reflexivity|]. split; vm_compute; reflexivity.
Qed.

Lemma duplicate_uploads_distinct_witness :
  ∃ rs w', upload_many 3 photo_request fresh_world = Some (rs, w')
    ∧ stored_names rs = ["photo.jpg"; "photo_1.jpg"; "photo_2.jpg"]
    ∧ NoDup (stored_names rs).
Proof.
  assert (∃ rs w', upload_many 3 photo_request fresh_world = Some (rs, w')
                   ∧ Forall (λ r, r.1 = 200) rs) as (rs & w' & Hmany & Hok).
  { do 2 eexists. split; [vm_compute; reflexivity|]. repeat constructor. }
  exists rs, w'.
  split; [exact Hmany|].
  destruct (@duplicate_uploads_distinct platform eq_refl 3 photo_request fresh_world)
    as (_ & Hseq & _).
  destruct (Hseq rs w' Hmany Hok) as (_ & Hnd & Hnames).
  destruct (Hnames "photo.jpg" "pixels" "Trip 2024" "photo.jpg") as [_ Hpat];
    [reflexivity|vm_compute; reflexivity|vm_compute; reflexivity|].
  split; [|exact Hnd].
  rewrite Hpat; [vm_compute; reflexivity|].
  apply (proj1 (Forall_forall _ _)).
  apply (bool_decide_unpack _).
  vm_compute. exact I.
Defined.

End Checks.

(** * The further properties on the reference platform *)

Module MoreChecks.
Import Reference.


Lemma get_file_size_unit_witness :
  get_file_size "uploads/a/b.txt" changed_mtime_world = "5.00 B"
  ∧ get_file_size "uploads/a/none.txt" changed_mtime_world = "Unknown".
Proof.
  destruct (@get_file_size_unit platform "uploads/a/b.txt" "hello" 200
              changed_mtime_world 0) as (Hunit & _ & Hmissing).
  - vm_compute. reflexivity.
  - intros Hk. exfalso. exact (Nat.lt_irrefl 0 Hk).
  - split.
    + rewrite (Hunit "B"); vm_compute; reflexivity.
    + apply Hmissing. vm_compute. reflexivity.
Defined.

Lemma is_image_by_extension_witness :
  is_image ("holiday.v2" +:+ "." +:+ "JPG") = true
  ∧ (contains dot "README" = false → is_image "README" = false).
Proof.
  destruct (is_image_by_extension "README" "holiday.v2" "JPG") as [Hnone Hext].
  - apply (bool_decide_unpack _). vm_compute. exact I.
  - split; [|exact Hnone]. rewrite Hext. vm_compute. reflexivity.
Defined.

Lemma numbered_keeps_image_type_witness :
  is_image (numbered "photo.jpg" 7) = is_image "photo.jpg".
Proof.
  apply numbered_keeps_image_type.
  apply (bool_decide_unpack _). vm_compute. exact I.
Defined.

Lemma sanitize_foldername_idempotent_witness :
  sanitize_foldername "my trip" = Some "my trip".
Proof.
  apply (@sanitize_foldername_idempotent platform " my trip!/.. ").
  vm_compute. reflexivity.
Defined.

Lemma sanitize_foldername_sublist_witness :
  chars "my trip" `sublist_of` chars " my trip!/.. ".
Proof.
  apply (@sanitize_foldername_sublist platform). vm_compute. reflexivity.
Defined.

Lemma load_after_save_witness :
  ∃ w', save_metadata [("a_b.txt_100.0", old_revision_record)] fresh_world
        = (Ok true, w')
    ∧ load_metadata w' = (Ok [("a_b.txt_100.0", old_revision_record)], w').
Proof.
  assert (∃ w', save_metadata [("a_b.txt_100.0", old_revision_record)]
                  fresh_world = (Ok true, w')) as [w' Hsave]
    by (eexists; vm_compute; reflexivity).
  exists w'. split; [exact Hsave|].
  apply (@load_after_save platform _ fresh_world w' Hsave).
  intros text [= <-]. vm_compute. reflexivity.
Defined.

Lemma failed_save_keeps_metadata_witness :
  ∃ w', save_metadata [] blocked_save_world = (Ok false, w')
    ∧ (load_metadata w').1 = (load_metadata blocked_save_world).1.
Proof.
  assert (∃ w', save_metadata [] blocked_save_world = (Ok false, w'))
    as [w' Hsave] by (eexists; vm_compute; reflexivity).
  exists w'. split; [exact Hsave|].
  exact (@failed_save_keeps_metadata platform [] blocked_save_world w' Hsave).
Defined.


Lemma returned_records_have_files_witness :
  ∃ all_files w',
    scan_all_uploads stale_world = (Ok all_files, w')
    ∧ NoDup all_files.*1
    ∧ Forall (λ kv, ∃ p, filepath kv.2 = Some p
                         ∧ path_exists p (load_metadata stale_world).2 = true)
             all_files.
Proof.
  assert (∃ all_files w', scan_all_uploads stale_world = (Ok all_files, w'))
    as (all_files & w' & Hscan) by (do 2 eexists; vm_compute; reflexivity).
  exists all_files, w'. split; [exact Hscan|].
  exact (@returned_records_have_files platform stale_world w' all_files Hscan).
Defined.


Lemma live_record_kept_witness :
  ∃ all_files w',
    scan_all_uploads changed_mtime_world = (Ok all_files, w')
    ∧ dict_get "a_b.txt_100.0" all_files = Some old_revision_record.
Proof.
  assert (∃ all_files w',
            scan_all_uploads changed_mtime_world = (Ok all_files, w'))
    as (all_files & w' & Hscan) by (do 2 eexists; vm_compute; reflexivity).
  exists all_files, w'. split; [exact Hscan|].
  apply (@live_record_kept platform changed_mtime_world w'
           [("a_b.txt_100.0", old_revision_record)] all_files
           "a_b.txt_100.0" "uploads/a/b.txt" old_revision_record).
  - vm_compute. reflexivity.
  - apply (bool_decide_unpack _). vm_compute. exact I.
  - by left.
  - reflexivity.
  - vm_compute. reflexivity.
  - exact Hscan.
Defined.

Lemma gallery_sort_stable_witness :
  ∃ all_files w' files stats,
    scan_all_uploads changed_mtime_world = (Ok all_files, w')
    ∧ gallery changed_mtime_world = ((200, GalleryBody files stats), w')
    ∧ filter (λ v, v_date v = "1970-01-01 00:01:40") files
      = filter (λ v, v_date v = "1970-01-01 00:01:40")
          ((λ '(file_id, data), view_of file_id data) <$> all_files).
Proof.
  assert (∃ all_files w',
            scan_all_uploads changed_mtime_world = (Ok all_files, w'))
    as (all_files & w' & Hscan) by (do 2 eexists; vm_compute; reflexivity).
  destruct (@gallery_sort_stable platform changed_mtime_world w' all_files
              "1970-01-01 00:01:40" Hscan) as (files & stats & Hg & Hf).
  exists all_files, w', files, stats. split; [exact Hscan|].
  split; [exact Hg|exact Hf].
Defined.

Lemma kept_records_come_first_witness :
  ∃ all_files w' new,
    scan_all_uploads changed_mtime_world = (Ok all_files, w')
    ∧ all_files
      = filter (λ kv, kept (load_metadata changed_mtime_world).2 kv = true)
          [("a_b.txt_100.0", old_revision_record)] ++ new.
Proof.
  assert (∃ all_files w',
            scan_all_uploads changed_mtime_world = (Ok all_files, w'))
    as (all_files & w' & Hscan) by (do 2 eexists; vm_compute; reflexivity).
  destruct (@kept_records_come_first platform changed_mtime_world w'
              [("a_b.txt_100.0", old_revision_record)] all_files)
    as (new & Hall & _).
  - vm_compute. reflexivity.
  - apply (bool_decide_unpack _). vm_compute. exact I.
  - exact Hscan.
  - exists all_files, w', new. split; [exact Hscan|exact Hall].
Defined.

Lemma upload_never_overwrites_witness :
  ∃ b w' name,
    upload_file photo_request fresh_world = Some ((200, b), w')
    ∧ fs fresh_world !! entry_path "Trip 2024" name = None
    ∧ fs w' !! entry_path "Trip 2024" name = Some (File "pixels" 1000).
Proof.
  assert (∃ ho ip size w',
            upload_file photo_request fresh_world
            = Some ((200, UploadBody "Trip 2024" "photo.jpg"
                            "uploads/Trip 2024/photo.jpg" ho ip size), w'))
    as (ho & ip & size & w' & Hup) by (do 4 eexists; vm_compute; reflexivity).
  destruct (@upload_never_overwrites platform eq_refl photo_request fresh_world
              w' _ Hup)
    as (file_name & bytes & fo & name & ho' & ip' & size' & Hfile & Hb
        & _ & Hfree & Hnew & _).
  injection Hfile as <- <-. injection Hb as <- <- _ _ _ _.
  eexists _, w', "photo.jpg". split; [exact Hup|]. split; [exact Hfree|exact Hnew].
Defined.


Lemma upload_writes_thumbnail_witness :
  ∃ ho ip size w',
    upload_file photo_request fresh_world
    = Some ((200, UploadBody "Trip 2024" "photo.jpg"
                    "uploads/Trip 2024/photo.jpg" ho ip size), w')
    ∧ fs w' !! path_join THUMBNAIL_DIR (thumbnail_name "Trip 2024" "photo.jpg")
      = Some (File "JPEG pixels" 1000).
Proof.
  assert (∃ ho ip size w',
            upload_file photo_request fresh_world
            = Some ((200, UploadBody "Trip 2024" "photo.jpg"
                            "uploads/Trip 2024/photo.jpg" ho ip size), w'))
    as (ho & ip & size & w' & Hup) by (do 4 eexists; vm_compute; reflexivity).
  destruct (@upload_writes_thumbnail platform eq_refl photo_request fresh_world
              w' "photo.jpg" "pixels" _ _ _ _ _ _ Hup eq_refl) as [_ Hthumb].
  exists ho, ip, size, w'. split; [exact Hup|].
  apply Hthumb.
  - vm_compute. reflexivity.
  - vm_compute. reflexivity.
  - vm_compute. reflexivity.
  - apply (bool_decide_unpack _). vm_compute. exact I.
Defined.

Lemma new_records_are_discovered_witness :
  ∃ all_files w' kv,
    scan_all_uploads changed_mtime_world = (Ok all_files, w')
    ∧ all_files !! 1 = Some kv
    ∧ filepath kv.2 = Some (entry_path "a" "b.txt")
    ∧ description kv.2 = Some "Auto-detected file"
    ∧ uploaded_by kv.2 = Some "Unknown".
Proof.
  assert (∃ all_files w' k data,
            scan_all_uploads changed_mtime_world = (Ok all_files, w')
            ∧ all_files !! 1 = Some (k, data)
            ∧ k ≠ "a_b.txt_100.0"
            ∧ folder data = Some "a" ∧ filename data = Some "b.txt")
    as (all_files & w' & k & data & Hscan & Hkv & Hk & Hfo & Hfn).
  { do 4 eexists. split; [vm_compute; reflexivity|].
    split; [vm_compute; reflexivity|].
    split; [|split; vm_compute; reflexivity].
    apply (bool_decide_unpack _). vm_compute. exact I. }
  destruct (@new_records_are_discovered platform changed_mtime_world w'
              [("a_b.txt_100.0", old_revision_record)] all_files (k, data))
    as (fo & fn & Hfo' & Hfn' & Hpath & _ & Hde & Hby & _).
  - vm_compute. reflexivity.
  - exact Hscan.
  - exact (list_elem_of_lookup_2 _ _ _ Hkv).
  - intros Hin. apply list_elem_of_singleton in Hin. apply Hk.
    exact (f_equal fst Hin).
  - exists all_files, w', (k, data). split; [exact Hscan|]. split; [exact Hkv|].
    simpl in *. rewrite Hfo in Hfo'. rewrite Hfn in Hfn'.
    injection Hfo' as <-. injection Hfn' as <-.
    split; [exact Hpath|]. split; [exact Hde|exact Hby].
Defined.

End MoreChecks.
